(** * ALX Polly: the poll server actions

    A shallow embedding of [app/lib/actions/poll-actions.ts]: the input
    sanitizer, the poll validator and the six server actions ([createPoll],
    [getUserPolls], [getPollById], [submitVote], [deletePoll], [updatePoll]),
    run against an explicit model of the Supabase backend (the [polls] and
    [votes] tables of the README schema, the auth session, store faults and a
    log of the round trips made). *)

From Stdlib Require Import List String Ascii Bool Arith NArith ZArith QArith Lia.
From Stdlib Require Import Sorted Permutation.
Import ListNotations.

Set Implicit Arguments.
Unset Strict Implicit.

Local Open Scope nat_scope.
Local Open Scope bool_scope.

(** ** JavaScript strings

    A JavaScript string is a sequence of UTF-16 code units and [s.length]
    counts code units.  Messages produced by the actions themselves are ASCII
    literals and are kept as [string]. *)

Definition CodeUnit := N.
Bind Scope N_scope with CodeUnit.
Definition JsString := list CodeUnit.

Definition js (s : string) : JsString :=
  List.map N_of_ascii (list_ascii_of_string s).

Fixpoint jsstring_eqb (a b : JsString) : bool :=
  match a, b with
  | [], [] => true
  | x :: a', y :: b' => N.eqb x y && jsstring_eqb a' b'
  | _, _ => false
  end.

Definition u_lt : CodeUnit := 60%N.
Definition u_gt : CodeUnit := 62%N.

(** WhiteSpace and LineTerminator code points, as [String.prototype.trim]
    strips them (ECMA-262, TrimString). *)
Definition isWhiteSpace (c : CodeUnit) : bool :=
  ((9 <=? c) && (c <=? 13))%N
  || N.eqb c 32 || N.eqb c 160 || N.eqb c 5760
  || ((8192 <=? c) && (c <=? 8202))%N
  || N.eqb c 8232 || N.eqb c 8233 || N.eqb c 8239 || N.eqb c 8287
  || N.eqb c 12288 || N.eqb c 65279.

Fixpoint trimStart (s : JsString) : JsString :=
  match s with
  | c :: rest => if isWhiteSpace c then trimStart rest else s
  | [] => []
  end.

Definition trimEnd (s : JsString) : JsString := rev (trimStart (rev s)).

Definition trim (s : JsString) : JsString := trimEnd (trimStart s).

(** The character class [[<>]]. *)
Definition isAngle (c : CodeUnit) : bool := N.eqb c u_lt || N.eqb c u_gt.

(** [s.replace(/[<>]/g, '')]: every match is deleted. *)
Definition replaceAngles (s : JsString) : JsString :=
  filter (fun c => negb (isAngle c)) s.

(** [sanitizeInput]: [input.trim().replace(/[<>]/g, '')]. *)
Definition sanitizeInput (input : JsString) : JsString :=
  replaceAngles (trim input).

(** What it means for a string to carry whitespace at one of its ends. *)
Definition startsWithSpace (s : JsString) : bool :=
  match s with c :: _ => isWhiteSpace c | [] => false end.

Definition endsWithSpace (s : JsString) : bool := startsWithSpace (rev s).

(** ** The validator *)

Record ValidationResult := Validation {
  isValid : bool;
  verror : option string
}.

Definition invalid (msg : string) : ValidationResult :=
  {| isValid := false; verror := Some msg |}.

Definition valid : ValidationResult :=
  {| isValid := true; verror := None |}.

Definition E_question_short := "Question must be at least 3 characters long."%string.
Definition E_question_long := "Question must be less than 500 characters."%string.
Definition E_options_few := "At least 2 options are required."%string.
Definition E_options_many := "Maximum 10 options allowed."%string.
Definition E_option_empty := "All options must have content."%string.
Definition E_option_long := "Each option must be less than 200 characters."%string.

(** [!s] on a string: only the empty string is falsy. *)
Definition falsy (s : JsString) : bool :=
  match s with [] => true | _ :: _ => false end.

(** The [for (const option of options)] loop with its two early returns. *)
Fixpoint validateOptions (options : list JsString) : ValidationResult :=
  match options with
  | [] => valid
  | option :: rest =>
      if falsy option || (List.length option <? 1) then invalid E_option_empty
      else if 200 <? List.length option then invalid E_option_long
      else validateOptions rest
  end.

Definition validatePollInput (question : JsString) (options : list JsString)
  : ValidationResult :=
  if falsy question || (List.length question <? 3) then invalid E_question_short
  else if 500 <? List.length question then invalid E_question_long
  else if List.length options <? 2 then invalid E_options_few
  else if 10 <? List.length options then invalid E_options_many
  else validateOptions options.

(** ** JavaScript numbers and argument values

    [submitVote] declares [optionIndex: number], yet a server action receives
    whatever the client serialised; the action itself tests
    [typeof optionIndex].  A number is a finite value (every double is a
    rational), a NaN or an infinity; only its order matters here. *)

Inductive Number :=
| Finite (q : Q)
| NaN
| Infinity (negative : bool).

Inductive JsValue :=
| JsUndefined
| JsNull
| JsBoolean (b : bool)
| JsNumber (n : Number)
| JsText (s : JsString).

(** [a < b] on numbers: false as soon as an operand is NaN. *)
Definition num_lt (a b : Number) : bool :=
  match a, b with
  | NaN, _ | _, NaN => false
  | Finite x, Finite y => negb (Qle_bool y x)
  | Finite _, Infinity negative => negb negative
  | Infinity negative, Finite _ => negative
  | Infinity n1, Infinity n2 => n1 && negb n2
  end.

(** [a > b] is [b < a]. *)
Definition num_gt (a b : Number) : bool := num_lt b a.

(** [a >= b]: false on NaN, otherwise the negation of [a < b]. *)
Definition num_ge (a b : Number) : bool :=
  match a, b with
  | NaN, _ | _, NaN => false
  | _, _ => negb (num_lt a b)
  end.

Definition num_of_nat (n : nat) : Number := Finite (inject_Z (Z.of_nat n)).

(** The value an [INTEGER] column accepts: a finite number with no
    fractional part. *)
Definition as_integer (x : Number) : option Z :=
  match x with
  | Finite q => let r := Qred q in
                if Pos.eqb (Qden r) 1 then Some (Qnum r) else None
  | _ => None
  end.

(** ** The UUID pattern

    [/^[0-9a-f]{8}-[0-9a-f]{4}-[1-5][0-9a-f]{3}-[89ab][0-9a-f]{3}-[0-9a-f]{12}$/i]:
    a sequence of thirty-six character classes, anchored at both ends.  Under
    the [i] flag a class of ASCII letters matches both cases and no character
    outside ASCII. *)

Inductive CharClass := HexDigit | Hyphen | Version | Variant.

Definition between (lo hi c : CodeUnit) : bool := ((lo <=? c) && (c <=? hi))%N.

Definition inClass (cl : CharClass) (c : CodeUnit) : bool :=
  match cl with
  | HexDigit => between 48 57 c || between 97 102 c || between 65 70 c
  | Hyphen => N.eqb c 45
  | Version => between 49 53 c
  | Variant => between 56 57 c || between 97 98 c || between 65 66 c
  end.

Definition uuidRegex : list CharClass :=
  repeat HexDigit 8 ++ [Hyphen] ++ repeat HexDigit 4 ++ [Hyphen]
  ++ [Version] ++ repeat HexDigit 3 ++ [Hyphen]
  ++ [Variant] ++ repeat HexDigit 3 ++ [Hyphen] ++ repeat HexDigit 12.

(** [regex.test(s)] for an anchored sequence of classes. *)
Fixpoint regex_test (pattern : list CharClass) (s : JsString) : bool :=
  match pattern, s with
  | [], [] => true
  | cl :: pattern', c :: s' => inClass cl c && regex_test pattern' s'
  | _, _ => false
  end.

(** ** The data store

    The two tables of the README schema.  [user_id] is nullable in both;
    [options] is [TEXT[] NOT NULL]; [option_index] is [INTEGER NOT NULL].
    Identifiers are compared as strings: the [UUID] typing of the id columns
    is not modelled. *)

Definition Uuid := JsString.

Record PollRow := {
  poll_id : Uuid;
  poll_user_id : option Uuid;
  poll_question : JsString;
  poll_options : list JsString;
  poll_created_at : nat;
  poll_updated_at : nat
}.

Record VoteRow := {
  vote_id : Uuid;
  vote_poll_id : Uuid;
  vote_user_id : option Uuid;
  vote_option_index : Z;
  vote_created_at : nat
}.

(** What [supabase.auth.getUser()] finds for the current request. *)
Inductive Session :=
| SignedIn (user_id : Uuid)
| Anonymous
| AuthFailure (message : string).

Inductive Table := Polls | Votes.
Inductive Verb := Select | Insert | Update | Delete.

(** The round trips and signals an action can emit. *)
Inductive Call :=
| AuthGetUser
| Query (t : Table) (v : Verb)
| RevalidatePath (path : string).

(** The world an action runs in.  [faults] schedules the outcome of the
    coming store queries, oldest first: [Some msg] makes the query fail with
    that message and no effect, [None] (or an exhausted schedule) lets it
    run.  [log] lists the calls made so far. *)
Record World := {
  session : Session;
  tbl_polls : list PollRow;
  tbl_votes : list VoteRow;
  faults : list (option string);
  next_uuid : nat;
  clock : nat;
  log : list Call
}.

Definition set_session (s : Session) (w : World) : World :=
  {| session := s; tbl_polls := tbl_polls w; tbl_votes := tbl_votes w;
     faults := faults w; next_uuid := next_uuid w; clock := clock w;
     log := log w |}.

Definition set_faults (fs : list (option string)) (w : World) : World :=
  {| session := session w; tbl_polls := tbl_polls w; tbl_votes := tbl_votes w;
     faults := fs; next_uuid := next_uuid w; clock := clock w; log := log w |}.

Definition record (c : Call) (w : World) : World :=
  {| session := session w; tbl_polls := tbl_polls w; tbl_votes := tbl_votes w;
     faults := faults w; next_uuid := next_uuid w; clock := clock w;
     log := log w ++ [c] |}.

(** A write: new table contents, one identifier and one clock tick consumed
    per inserted row. *)
Definition set_tables (ps : list PollRow) (vs : list VoteRow) (fresh : nat)
  (w : World) : World :=
  {| session := session w; tbl_polls := ps; tbl_votes := vs;
     faults := faults w; next_uuid := next_uuid w + fresh;
     clock := clock w + fresh; log := log w |}.

(** [gen_random_uuid()], drawn from a counter. *)
Definition hexDigit (n : nat) : CodeUnit :=
  let d := N.of_nat (n mod 16) in
  if (d <? 10)%N then (48 + d)%N else (87 + d)%N.

Fixpoint hexFixed (width n : nat) : JsString :=
  match width with
  | 0 => []
  | S width' => hexFixed width' (n / 16) ++ [hexDigit n]
  end.

Definition gen_random_uuid (n : nat) : Uuid :=
  js "00000000-0000-4000-8000-" ++ hexFixed 12 n.

(** ** Actions: state passing with exceptions *)

Inductive JsError := TypeError (message : string).

Inductive Completion (A : Type) :=
| Returned (a : A)
| Thrown (e : JsError).

Arguments Returned {A} a.
Arguments Thrown {A} e.

Definition Action (A : Type) := World -> Completion A * World.

Definition ret {A} (a : A) : Action A := fun w => (Returned a, w).

Definition bind {A B} (m : Action A) (k : A -> Action B) : Action B :=
  fun w => match m w with
           | (Returned a, w') => k a w'
           | (Thrown e, w') => (Thrown e, w')
           end.

Definition lift {A} (c : Completion A) : Action A := fun w => (c, w).

Declare Scope action_scope.
Delimit Scope action_scope with action.
Notation "x <- m ;; k" := (bind m (fun x => k))
  (at level 100, m at next level, right associativity) : action_scope.
Notation "' p <- m ;; k" := (bind m (fun x => match x with p => k end))
  (at level 100, p pattern, m at next level, right associativity) : action_scope.
Local Open Scope action_scope.

(** ** The backend client

    [supabase.auth.getUser()] answers [{ data: { user }, error }]: a user
    when the session holds one, a null user otherwise, with an error when the
    lookup itself failed. *)
Definition auth_getUser : Action (option Uuid * option string) :=
  fun w =>
    (Returned match session w with
              | SignedIn uid => (Some uid, None)
              | Anonymous => (None, None)
              | AuthFailure msg => (None, Some msg)
              end,
     record AuthGetUser w).

Definition next_fault (w : World) : option string * World :=
  match faults w with
  | [] => (None, w)
  | f :: fs => (f, set_faults fs w)
  end.

(** One query: logged, then failed by the schedule or run on the tables. *)
Definition roundtrip {A} (t : Table) (v : Verb) (failed : string -> A)
  (run : World -> A * World) : Action A :=
  fun w =>
    let (f, w1) := next_fault (record (Query t v) w) in
    match f with
    | Some msg => (Returned (failed msg), w1)
    | None => let (a, w2) := run w1 in (Returned a, w2)
    end.

Definition E_single := "JSON object requested, multiple (or no) rows returned"%string.
Definition E_integer_syntax := "invalid input syntax for type integer"%string.
Definition E_not_null := "null value in column option_index violates not-null constraint"%string.
Definition E_foreign_key := "insert on table votes violates foreign key constraint votes_poll_id_fkey"%string.

(** [.single()]: the row when the filtered result has exactly one row, null
    data and an error when it has none or several. *)
Definition single {A} (rows : list A) : option A * option string :=
  match rows with
  | [r] => (Some r, None)
  | _ => (None, Some E_single)
  end.

Definition has_id (id : Uuid) (r : PollRow) : bool := jsstring_eqb (poll_id r) id.

(** [.eq("user_id", uid)]: a null [user_id] equals nothing. *)
Definition owned_by (uid : Uuid) (owner : option Uuid) : bool :=
  match owner with
  | Some o => jsstring_eqb o uid
  | None => false
  end.

Definition poll_of (uid : Uuid) (r : PollRow) : bool := owned_by uid (poll_user_id r).

Definition scoped (id uid : Uuid) (r : PollRow) : bool := has_id id r && poll_of uid r.

Definition vote_by (pollId uid : Uuid) (v : VoteRow) : bool :=
  jsstring_eqb (vote_poll_id v) pollId && owned_by uid (vote_user_id v).

(** [.order("created_at", { ascending: false })]. *)
Fixpoint insert_desc (r : PollRow) (rows : list PollRow) : list PollRow :=
  match rows with
  | [] => [r]
  | x :: rest => if poll_created_at x <? poll_created_at r then r :: rows
                 else x :: insert_desc r rest
  end.

Definition order_created_desc (rows : list PollRow) : list PollRow :=
  fold_right insert_desc [] rows.

(** [from("polls").insert([{ user_id, question, options }])] *)
Definition polls_insert (uid : Uuid) (question : JsString) (options : list JsString)
  : Action (option string) :=
  roundtrip Polls Insert (fun msg => Some msg) (fun w =>
    let row := {| poll_id := gen_random_uuid (next_uuid w);
                  poll_user_id := Some uid;
                  poll_question := question;
                  poll_options := options;
                  poll_created_at := clock w;
                  poll_updated_at := clock w |} in
    (None, set_tables (tbl_polls w ++ [row]) (tbl_votes w) 1 w)).

(** [from("polls").select("*").eq("user_id", uid).order("created_at", ...)] *)
Definition polls_select_by_user (uid : Uuid)
  : Action (option (list PollRow) * option string) :=
  roundtrip Polls Select (fun msg => (None, Some msg)) (fun w =>
    ((Some (order_created_desc (filter (poll_of uid) (tbl_polls w))), None), w)).

(** [from("polls").select("*").eq("id", id).single()] *)
Definition polls_select_single (id : Uuid) : Action (option PollRow * option string) :=
  roundtrip Polls Select (fun msg => (None, Some msg)) (fun w =>
    (single (filter (has_id id) (tbl_polls w)), w)).

(** [from("polls").select("options").eq("id", id).single()] *)
Definition polls_select_options_single (id : Uuid)
  : Action (option (list JsString) * option string) :=
  roundtrip Polls Select (fun msg => (None, Some msg)) (fun w =>
    (single (List.map poll_options (filter (has_id id) (tbl_polls w))), w)).

(** [from("votes").select("id").eq("poll_id", p).eq("user_id", u).single()] *)
Definition votes_select_single (pollId uid : Uuid) : Action (option Uuid * option string) :=
  roundtrip Votes Select (fun msg => (None, Some msg)) (fun w =>
    (single (List.map vote_id (filter (vote_by pollId uid) (tbl_votes w))), w)).

(** [from("votes").insert([{ poll_id, user_id, option_index }])]: the
    column types and the foreign key are checked before the row lands.  A
    NaN is serialised as null. *)
Definition votes_insert (pollId : Uuid) (user : option Uuid) (optionIndex : Number)
  : Action (option string) :=
  roundtrip Votes Insert (fun msg => Some msg) (fun w =>
    match optionIndex with
    | Finite _ =>
        match as_integer optionIndex with
        | None => (Some E_integer_syntax, w)
        | Some i =>
            if existsb (has_id pollId) (tbl_polls w) then
              let row := {| vote_id := gen_random_uuid (next_uuid w);
                            vote_poll_id := pollId;
                            vote_user_id := user;
                            vote_option_index := i;
                            vote_created_at := clock w |} in
              (None, set_tables (tbl_polls w) (tbl_votes w ++ [row]) 1 w)
            else (Some E_foreign_key, w)
        end
    | _ => (Some E_not_null, w)
    end).

(** [from("polls").delete().eq("id", id).eq("user_id", uid)]: the matching
    rows go, and with them their votes ([ON DELETE CASCADE]). *)
Definition polls_delete (id uid : Uuid) : Action (option string) :=
  roundtrip Polls Delete (fun msg => Some msg) (fun w =>
    let gone := filter (scoped id uid) (tbl_polls w) in
    let kept := filter (fun r => negb (scoped id uid r)) (tbl_polls w) in
    let orphan v := existsb (has_id (vote_poll_id v)) gone in
    (None, set_tables kept (filter (fun v => negb (orphan v)) (tbl_votes w)) 0 w)).

(** [from("polls").update({ question, options }).eq("id", id).eq("user_id", uid)] *)
Definition polls_update (id uid : Uuid) (question : JsString) (options : list JsString)
  : Action (option string) :=
  roundtrip Polls Update (fun msg => Some msg) (fun w =>
    let rewrite r :=
      if scoped id uid r then
        {| poll_id := poll_id r; poll_user_id := poll_user_id r;
           poll_question := question; poll_options := options;
           poll_created_at := poll_created_at r;
           poll_updated_at := poll_updated_at r |}
      else r in
    (None, set_tables (List.map rewrite (tbl_polls w)) (tbl_votes w) 0 w)).

(** [revalidatePath(path)]: a signal to the presentation layer. *)
Definition revalidatePath (path : string) : Action unit :=
  fun w => (Returned tt, record (RevalidatePath path) w).

(** ** Form data

    A [FormData] is an ordered list of named entries; an entry value is a
    string or a [File]. *)

Inductive FormDataEntryValue :=
| FormString (s : JsString)
| FormFile (name : JsString).

Definition FormData := list (string * FormDataEntryValue).

(** [formData.getAll(name)] *)
Definition getAll (name : string) (formData : FormData) : list FormDataEntryValue :=
  List.map snd (filter (fun e => String.eqb (fst e) name) formData).

(** [formData.get(name)]: the first value, or null. *)
Definition get (name : string) (formData : FormData) : option FormDataEntryValue :=
  hd_error (getAll name formData).

(** [Boolean(v)] on an entry value: every object is truthy, a string is
    truthy unless empty. *)
Definition truthy (v : FormDataEntryValue) : bool :=
  match v with
  | FormString s => negb (falsy s)
  | FormFile _ => true
  end.

(** [sanitizeInput(v as string)]: the cast checks nothing at run time, so
    [input.trim()] meets whatever the form held. *)
Definition call_sanitizeInput (v : option FormDataEntryValue) : Completion JsString :=
  match v with
  | Some (FormString s) => Returned (sanitizeInput s)
  | Some (FormFile _) => Thrown (TypeError "input.trim is not a function")
  | None => Thrown (TypeError "Cannot read properties of null (reading 'trim')")
  end.

(** [values.map(opt => sanitizeInput(opt as string))], left to right. *)
Fixpoint map_sanitizeInput (values : list FormDataEntryValue) : Completion (list JsString) :=
  match values with
  | [] => Returned []
  | v :: rest =>
      match call_sanitizeInput (Some v) with
      | Thrown e => Thrown e
      | Returned s =>
          match map_sanitizeInput rest with
          | Thrown e => Thrown e
          | Returned ss => Returned (s :: ss)
          end
      end
  end.

(** The two lines [createPoll] and [updatePoll] open with:
    [question = sanitizeInput(formData.get("question") as string)] and
    [options = formData.getAll("options").filter(Boolean).map(...)]. *)
Definition readPollForm (formData : FormData) : Completion (JsString * list JsString) :=
  match call_sanitizeInput (get "question" formData) with
  | Thrown e => Thrown e
  | Returned question =>
      match map_sanitizeInput (filter truthy (getAll "options" formData)) with
      | Thrown e => Thrown e
      | Returned options => Returned (question, options)
      end
  end.

(** ** The server actions

    Each action starts with [await createClient()], which builds the client
    from the request's cookies and makes no round trip. *)

Record ActionResult := Result { error : option string }.

Record UserPollsResult := UserPolls {
  polls : list PollRow;
  polls_error : option string
}.

Record PollResult := PollFound {
  poll : option PollRow;
  poll_error : option string
}.

Definition failure (msg : string) : ActionResult := {| error := Some msg |}.
Definition success : ActionResult := {| error := None |}.

Definition createPoll (formData : FormData) : Action ActionResult :=
  '(question, options) <- lift (readPollForm formData) ;;
  let validation := validatePollInput question options in
  if negb (isValid validation) then ret {| error := verror validation |}
  else
    '(user, userError) <- auth_getUser ;;
    match userError, user with
    | Some msg, _ => ret (failure msg)
    | None, None => ret (failure "You must be logged in to create a poll.")
    | None, Some uid =>
        err <- polls_insert uid question options ;;
        match err with
        | Some msg => ret (failure msg)
        | None => _ <- revalidatePath "/polls" ;; ret success
        end
    end.

Definition getUserPolls : Action UserPollsResult :=
  '(user, _) <- auth_getUser ;;
  match user with
  | None => ret {| polls := []; polls_error := Some "Not authenticated"%string |}
  | Some uid =>
      '(data, err) <- polls_select_by_user uid ;;
      match err with
      | Some msg => ret {| polls := []; polls_error := Some msg |}
      | None => ret {| polls := match data with Some rows => rows | None => [] end;
                       polls_error := None |}
      end
  end.

Definition getPollById (id : JsString) : Action PollResult :=
  if negb (regex_test uuidRegex id) then
    ret {| poll := None; poll_error := Some "Invalid poll ID format"%string |}
  else
    '(data, err) <- polls_select_single id ;;
    match err with
    | Some msg => ret {| poll := None; poll_error := Some msg |}
    | None => ret {| poll := data; poll_error := None |}
    end.

(** [typeof optionIndex !== 'number' || optionIndex < 0 || optionIndex > 9] *)
Definition index_rejected (optionIndex : JsValue) : bool :=
  match optionIndex with
  | JsNumber n => num_lt n (num_of_nat 0) || num_gt n (num_of_nat 9)
  | _ => true
  end.

(** [optionIndex] read as a number, which it is once the [typeof] test has
    passed. *)
Definition the_number (v : JsValue) : Number :=
  match v with JsNumber n => n | _ => NaN end.

Definition submitVote (pollId : JsString) (optionIndex : JsValue) : Action ActionResult :=
  if negb (regex_test uuidRegex pollId) then ret (failure "Invalid poll ID format")
  else if index_rejected optionIndex then ret (failure "Invalid option index")
  else
    '(user, _) <- auth_getUser ;;
    '(poll, pollError) <- polls_select_options_single pollId ;;
    match pollError, poll with
    | Some _, _ | None, None => ret (failure "Poll not found")
    | None, Some options =>
        if num_ge (the_number optionIndex) (num_of_nat (List.length options)) then
          ret (failure "Invalid option index for this poll")
        else
          existingVote <- match user with
                          | Some uid => '(data, _) <- votes_select_single pollId uid ;; ret data
                          | None => ret None
                          end ;;
          match existingVote with
          | Some _ => ret (failure "You have already voted on this poll")
          | None =>
              err <- votes_insert pollId user (the_number optionIndex) ;;
              match err with
              | Some msg => ret (failure msg)
              | None => ret success
              end
          end
    end.

Definition deletePoll (id : JsString) : Action ActionResult :=
  '(user, userError) <- auth_getUser ;;
  match userError, user with
  | Some _, _ => ret (failure "Authentication error")
  | None, None => ret (failure "You must be logged in to delete a poll.")
  | None, Some uid =>
      err <- polls_delete id uid ;;
      match err with
      | Some msg => ret (failure msg)
      | None => _ <- revalidatePath "/polls" ;; ret success
      end
  end.

Definition updatePoll (pollId : JsString) (formData : FormData) : Action ActionResult :=
  '(question, options) <- lift (readPollForm formData) ;;
  let validation := validatePollInput question options in
  if negb (isValid validation) then ret {| error := verror validation |}
  else
    '(user, userError) <- auth_getUser ;;
    match userError, user with
    | Some msg, _ => ret (failure msg)
    | None, None => ret (failure "You must be logged in to update a poll.")
    | None, Some uid =>
        err <- polls_update pollId uid question options ;;
        match err with
        | Some msg => ret (failure msg)
        | None => ret success
        end
    end.

(** ** The validator as the specification words it

    Six rules applied one after the other to the whole input: the rule
    "every option non-empty" is settled for all options before the rule
    "every option at most 200 characters" is looked at. *)
Definition validatePollInput_spec (question : JsString) (options : list JsString)
  : ValidationResult :=
  if List.length question <? 3 then invalid E_question_short
  else if 500 <? List.length question then invalid E_question_long
  else if List.length options <? 2 then invalid E_options_few
  else if 10 <? List.length options then invalid E_options_many
  else if existsb (fun o => List.length o =? 0) options then invalid E_option_empty
  else if existsb (fun o => 200 <? List.length o) options then invalid E_option_long
  else valid.

(** An option the loop lets through. *)
Definition option_ok (o : JsString) : Prop :=
  1 <= List.length o <= 200.

(** ** Sample data *)

Definition alice : Uuid := js "6f1c2a9e-3b7d-4c58-9a10-5d2e8f4b7c31".
Definition bob : Uuid := js "0b9d4e72-a1c3-4f86-b2d5-7e3a9c1f6044".
Definition colors_id : Uuid := js "123e4567-e89b-42d3-a456-426614174000".

Definition colors : PollRow :=
  {| poll_id := colors_id;
     poll_user_id := Some alice;
     poll_question := js "Favorite color?";
     poll_options := [js "Red"; js "Blue"; js "Green"];
     poll_created_at := 0;
     poll_updated_at := 0 |}.

Definition vote_of (n : nat) (user : option Uuid) (i : Z) : VoteRow :=
  {| vote_id := gen_random_uuid n;
     vote_poll_id := colors_id;
     vote_user_id := user;
     vote_option_index := i;
     vote_created_at := n |}.

(** A store holding Alice's poll and the given votes, seen by a session. *)
Definition world_of (s : Session) (votes : list VoteRow) : World :=
  {| session := s;
     tbl_polls := [colors];
     tbl_votes := votes;
     faults := [];
     next_uuid := 1 + List.length votes;
     clock := 1 + List.length votes;
     log := [] |}.

Definition long_option : JsString := repeat 120%N 201.

Definition color_form (question : JsString) (options : list JsString) : FormData :=
  ("question"%string, FormString question)
  :: List.map (fun o => ("options"%string, FormString o)) options.

(** A store with no row yet. *)
Definition empty_world (s : Session) : World :=
  {| session := s; tbl_polls := []; tbl_votes := []; faults := [];
     next_uuid := 0; clock := 0; log := [] |}.

Definition favorite_color : FormData :=
  color_form (js "Favorite color?") [js "Red"; js "Blue"].

(** The ids of the polls a listing returned. *)
Definition listed (c : Completion UserPollsResult) : list Uuid :=
  match c with
  | Returned r => List.map poll_id (polls r)
  | Thrown _ => []
  end.

(** The user a session resolves to in [submitVote], which keeps [user] and
    drops the lookup's error. *)
Definition caller (s : Session) : option Uuid :=
  match s with
  | SignedIn uid => Some uid
  | Anonymous | AuthFailure _ => None
  end.

(** The row an insert into [votes] adds to world [w]. *)
Definition new_vote (w : World) (pollId : Uuid) (user : option Uuid) (i : Z) : VoteRow :=
  {| vote_id := gen_random_uuid (next_uuid w);
     vote_poll_id := pollId;
     vote_user_id := user;
     vote_option_index := i;
     vote_created_at := clock w |}.

(** "A non-negative integer at most 9", as the specification words the
    first check on the option index. *)
Definition integer_0_to_9 (v : JsValue) : bool :=
  match v with
  | JsNumber n => match as_integer n with
                  | Some i => ((0 <=? i) && (i <=? 9))%Z
                  | None => false
                  end
  | _ => false
  end.

(** What the code's first check on the option index turns away: anything
    that is not a number, and any number below 0 or above 9. *)
Definition outside_0_9 (v : JsValue) : Prop :=
  match v with
  | JsNumber (Finite q) => (q < 0)%Q \/ (9 < q)%Q
  | JsNumber NaN => False
  | JsNumber (Infinity _) => True
  | _ => True
  end.

Definition one_and_a_half : JsValue := JsNumber (Finite (3 # 2)).
Definition index (i : Z) : JsValue := JsNumber (Finite (inject_Z i)).

Definition rename_form : FormData :=
  color_form (js "Favourite colour?") [js "Crimson"; js "Teal"].

(** A form the two opening lines read without throwing and the validator
    accepts. *)
Definition accepted (formData : FormData) : Prop :=
  exists question options,
    readPollForm formData = Returned (question, options)
    /\ isValid (validatePollInput question options) = true.

(** An entry value that is a string, as the casts of [createPoll] and
    [updatePoll] take every entry to be. *)
Definition is_text (v : FormDataEntryValue) : Prop :=
  exists s, v = FormString s.

(** A question of 501 characters: one space and five hundred letters. *)
Definition padded_question : JsString := 32%N :: repeat 97%N 500.

(** A submission with two options and no question field. *)
Definition no_question_form : FormData :=
  [("options"%string, FormString (js "Red"));
   ("options"%string, FormString (js "Blue"))].

(** [m] returns a value, whatever world it starts in: it throws nothing. *)
Definition returns {A} (m : Action A) : Prop :=
  forall w, exists a, fst (m w) = Returned a.

(** [k] calls of [submitVote] in a row. *)
Fixpoint submitVotes (k : nat) (pollId : JsString) (v : JsValue) (w : World) : World :=
  match k with
  | 0 => w
  | S k' => submitVotes k' pollId v (snd (submitVote pollId v w))
  end.

(** ** Invariants of actions

    [respects R m]: whatever world [m] starts in, the world it ends in is
    related to it by [R]. *)
Definition respects {A} (R : World -> World -> Prop) (m : Action A) : Prop :=
  forall w, R w (snd (m w)).

(** The log only grows. *)
Definition log_grows (w w' : World) : Prop :=
  exists rest, log w' = log w ++ rest.

(** [m] does not look at the session and leaves it alone. *)
Definition session_blind {A} (m : Action A) : Prop :=
  forall s w, m (set_session s w) = (fst (m w), set_session s (snd (m w))).

(** ** What the validator accepts, and what a stored poll looks like *)

Definition well_formed_input (question : JsString) (options : list JsString) : Prop :=
  3 <= List.length question <= 500
  /\ 2 <= List.length options <= 10
  /\ Forall option_ok options.

(** A string without angle brackets. *)
Definition clean (s : JsString) : Prop :=
  Forall (fun c => c <> u_lt /\ c <> u_gt) s.

(** A stored poll the validator would accept as it stands, and that
    holds no angle bracket. *)
Definition poll_well_formed (r : PollRow) : Prop :=
  isValid (validatePollInput (poll_question r) (poll_options r)) = true
  /\ clean (poll_question r)
  /\ Forall clean (poll_options r).

(** The two tables are what they were. *)
Definition same_tables (w w' : World) : Prop :=
  tbl_polls w' = tbl_polls w /\ tbl_votes w' = tbl_votes w.

(** Newest first. *)
Definition newest_first (rows : list PollRow) : Prop :=
  Sorted.StronglySorted (fun a b => poll_created_at b <= poll_created_at a) rows.

(** A code unit the UUID pattern can match. *)
Definition hex_or_hyphen (c : CodeUnit) : bool :=
  inClass HexDigit c || inClass Hyphen c.

(** ** The option list of the two forms

    [PollCreateForm] and [EditPollForm] keep the options in a state
    variable and change it through three handlers.  [removeOption] tests
    the length of the rendered list ([options]) and filters the current
    one ([opts]). *)

(** [xs.map((x, i) => f(x, i))], counting from [i]. *)
Fixpoint map_index {A B} (f : A -> nat -> B) (i : nat) (xs : list A) : list B :=
  match xs with
  | [] => []
  | x :: rest => f x i :: map_index f (S i) rest
  end.

(** [xs.filter((x, i) => f(x, i))], counting from [i]. *)
Fixpoint filter_index {A} (f : A -> nat -> bool) (i : nat) (xs : list A) : list A :=
  match xs with
  | [] => []
  | x :: rest => if f x i then x :: filter_index f (S i) rest
                 else filter_index f (S i) rest
  end.

Definition handleOptionChange (idx : nat) (value : JsString) (opts : list JsString)
  : list JsString :=
  map_index (fun opt i => if i =? idx then value else opt) 0 opts.

Definition addOption (opts : list JsString) : list JsString := opts ++ [[]].

Definition removeOption (idx : nat) (options opts : list JsString) : list JsString :=
  if 2 <? List.length options then
    filter_index (fun _ i => negb (i =? idx)) 0 opts
  else opts.

(** What the user can do to the option list between two renders. *)
Inductive OptionEvent :=
| Typed (idx : nat) (value : JsString)
| Added
| Removed (idx : nat).

Definition handle (opts : list JsString) (e : OptionEvent) : list JsString :=
  match e with
  | Typed idx value => handleOptionChange idx value opts
  | Added => addOption opts
  | Removed idx => removeOption idx opts opts
  end.

(** ** [FormData] writes, and the form [EditPollForm] submits *)

(** [formData.append(name, value)] *)
Definition formData_append (name : string) (v : FormDataEntryValue) (formData : FormData)
  : FormData :=
  formData ++ [(name, v)].

(** [formData.delete(name)] *)
Definition formData_delete (name : string) (formData : FormData) : FormData :=
  filter (fun e => negb (String.eqb (fst e) name)) formData.

(** [formData.set(name, value)]: the first entry of that name takes the
    value and the others go; with no such entry the value is appended. *)
Fixpoint formData_set (name : string) (v : FormDataEntryValue) (formData : FormData)
  : FormData :=
  match formData with
  | [] => [(name, v)]
  | e :: rest => if String.eqb (fst e) name then (name, v) :: formData_delete name rest
                 else e :: formData_set name v rest
  end.

(** [formData.set('question', question); formData.delete('options');
    options.forEach((opt) => formData.append('options', opt))] *)
Definition editFormData (question : JsString) (options : list JsString)
  (formData : FormData) : FormData :=
  fold_left (fun fd opt => formData_append "options" (FormString opt) fd) options
    (formData_delete "options" (formData_set "question" (FormString question) formData)).

(** The server call of [EditPollForm]'s [action]. *)
Definition EditPollForm_submit (pollId : JsString) (question : JsString)
  (options : list JsString) (formData : FormData) : Action ActionResult :=
  updatePoll pollId (editFormData question options formData).

(** ** The edit page

    [notFound()] and [redirect()] end the rendering; [getCurrentUser] lives
    in [auth-actions.ts] and is taken as given. *)

Inductive PageOutcome :=
| NotFound
| Redirect (path : string)
| Render (poll : PollRow).

(** A string in a condition: empty is false. *)
Definition truthy_message (m : option string) : bool :=
  match m with
  | Some EmptyString | None => false
  | Some _ => true
  end.

Section EditPage.
Variable getCurrentUser : Action (option Uuid).

Definition EditPollPage (id : JsString) : Action PageOutcome :=
  r <- getPollById id ;;
  match truthy_message (poll_error r), poll r with
  | true, _ | false, None => ret NotFound
  | false, Some p =>
      user <- getCurrentUser ;;
      match user with
      | None => ret (Redirect "/login")
      | Some uid =>
          if negb (owned_by uid (poll_user_id p)) then ret (Redirect "/polls")
          else ret (Render p)
      end
  end.
End EditPage.

(** The signed-in user, as the README describes [getCurrentUser]. *)
Definition session_user : Action (option Uuid) :=
  '(user, _) <- auth_getUser ;; ret user.

(** ** Outcomes of actions

    [ensures m w Q]: started in [w], [m] ends with a completion and a world
    that satisfy [Q]. *)
Definition ensures {A} (m : Action A) (w : World) (Q : Completion A -> World -> Prop)
  : Prop :=
  Q (fst (m w)) (snd (m w)).

(** [w'] is [w] after calls that wrote nothing: only the log and the fault
    schedule have moved. *)
Definition only_calls (w w' : World) : Prop :=
  tbl_polls w' = tbl_polls w /\ tbl_votes w' = tbl_votes w
  /\ session w' = session w
  /\ next_uuid w' = next_uuid w /\ clock w' = clock w.

(** * Properties *)

(** ** Strings *)

Lemma jsstring_eqb_eq (a b : JsString) : jsstring_eqb a b = true <-> a = b.
Proof.
  revert b; induction a as [|x a IH]; intros [|y b]; simpl; split; intro H;
    try reflexivity; try discriminate.
  - apply andb_true_iff in H as [Hx Hab].
    apply N.eqb_eq in Hx. apply IH in Hab. congruence.
  - injection H as -> ->. rewrite N.eqb_refl. simpl. now apply IH.
Qed.

Lemma jsstring_eqb_refl (a : JsString) : jsstring_eqb a a = true.
Proof. now apply jsstring_eqb_eq. Qed.

Lemma trimStart_length (s : JsString) : List.length (trimStart s) <= List.length s.
Proof.
  induction s as [|c s IH]; simpl; [lia|].
  destruct (isWhiteSpace c); simpl; lia.
Qed.

Lemma trim_length (s : JsString) : List.length (trim s) <= List.length s.
Proof.
  unfold trim, trimEnd. rewrite length_rev.
  etransitivity; [apply trimStart_length|]. rewrite length_rev.
  apply trimStart_length.
Qed.

Lemma filter_length_le {A} (f : A -> bool) (l : list A) :
  List.length (filter f l) <= List.length l.
Proof. induction l as [|x l IH]; simpl; [lia|]. destruct (f x); simpl; lia. Qed.

(** Sanitizing never lengthens a string. *)
Lemma sanitizeInput_length (s : JsString) :
  List.length (sanitizeInput s) <= List.length s.
Proof.
  unfold sanitizeInput, replaceAngles.
  etransitivity; [apply filter_length_le|apply trim_length].
Qed.

(** No angle bracket survives sanitizing. *)
Lemma sanitizeInput_strips_angles (s : JsString) (c : CodeUnit) :
  In c (sanitizeInput s) -> c <> u_lt /\ c <> u_gt.
Proof.
  unfold sanitizeInput, replaceAngles. intros H.
  apply filter_In in H as [_ H]. apply negb_true_iff in H.
  unfold isAngle in H. apply orb_false_iff in H as [H1 H2].
  apply N.eqb_neq in H1, H2. now split.
Qed.

Lemma sanitizeInput_script :
  sanitizeInput (js "<script>hi</script>") = js "scripthi/script".
Proof. reflexivity. Qed.

Lemma trimStart_no_leading (s : JsString) : startsWithSpace (trimStart s) = false.
Proof.
  induction s as [|c s IH]; simpl; [reflexivity|].
  destruct (isWhiteSpace c) eqn:E; [exact IH|]. simpl. exact E.
Qed.

Lemma trimStart_app_last (r : JsString) (c : CodeUnit) :
  isWhiteSpace c = false -> exists r', trimStart (r ++ [c]) = r' ++ [c].
Proof.
  intros Hc. induction r as [|x r [r' IH]]; simpl.
  - rewrite Hc. now exists [].
  - destruct (isWhiteSpace x).
    + now exists r'.
    + now exists (x :: r).
Qed.

(** [trim] does leave no whitespace at either end. *)
Lemma trim_trimmed (s : JsString) :
  startsWithSpace (trim s) = false /\ endsWithSpace (trim s) = false.
Proof.
  split.
  - unfold trim, trimEnd.
    pose proof (trimStart_no_leading s) as H.
    destruct (trimStart s) as [|c t]; [reflexivity|]. simpl in H.
    simpl rev. destruct (trimStart_app_last (rev t) H) as [r' ->].
    rewrite rev_app_distr. simpl. exact H.
  - unfold endsWithSpace, trim, trimEnd. rewrite rev_involutive.
    apply trimStart_no_leading.
Qed.

(** So the sanitizer's output is trimmed whenever the input holds no angle
    bracket. *)
Lemma sanitizeInput_trimmed_without_angles (s : JsString) :
  forallb (fun c => negb (isAngle c)) s = true ->
  startsWithSpace (sanitizeInput s) = false /\ endsWithSpace (sanitizeInput s) = false.
Proof.
  intros H. unfold sanitizeInput, replaceAngles.
  assert (Hkeep : forall t, forallb (fun c => negb (isAngle c)) t = true ->
                            filter (fun c => negb (isAngle c)) t = t).
  { induction t as [|c t IH]; simpl; [reflexivity|].
    intros Ht. apply andb_true_iff in Ht as [-> Ht]. now rewrite IH. }
  assert (Hstart : forall t, forallb (fun c => negb (isAngle c)) t = true ->
                             forallb (fun c => negb (isAngle c)) (trimStart t) = true).
  { induction t as [|c t IH]; simpl; [reflexivity|].
    intros Ht. destruct (isWhiteSpace c); [|exact Ht].
    apply andb_true_iff in Ht as [_ Ht]. now apply IH. }
  assert (Hrev : forall t, forallb (fun c => negb (isAngle c)) t = true ->
                           forallb (fun c => negb (isAngle c)) (rev t) = true).
  { intros t Ht. apply forallb_forall. intros x Hx. apply in_rev in Hx.
    now apply (proj1 (forallb_forall _ t) Ht). }
  rewrite Hkeep; [apply trim_trimmed|].
  unfold trim, trimEnd. auto.
Qed.

(** C6. The claim: for every string the sanitizer's output holds no [<] or
    [>] and has no whitespace at either end.  The first half holds
    ([sanitizeInput_strips_angles]) and so does the example
    ([sanitizeInput_script]); the second half fails, because the string is
    trimmed before the brackets are removed: whitespace that a bracket
    shielded from [trim] ends up at the edge. *)
Theorem sanitizeInput_leaves_shielded_space :
  sanitizeInput (js "> x") = js " x"
  /\ startsWithSpace (sanitizeInput (js "> x")) = true
  /\ sanitizeInput (js "x <") = js "x "
  /\ endsWithSpace (sanitizeInput (js "x <")) = true.
Proof. repeat split; reflexivity. Qed.

(** ** The validator *)

Lemma falsy_length (s : JsString) : falsy s || (List.length s <? 1) = (List.length s <? 1).
Proof. destruct s; reflexivity. Qed.

Lemma falsy_short (s : JsString) : falsy s || (List.length s <? 3) = (List.length s <? 3).
Proof. destruct s; reflexivity. Qed.

Lemma validateOptions_ok (options : list JsString) :
  Forall option_ok options -> validateOptions options = valid.
Proof.
  induction 1 as [|o rest [Hlo Hhi] _ IH]; simpl; [reflexivity|].
  rewrite falsy_length.
  destruct (Nat.ltb_spec (List.length o) 1); [lia|].
  destruct (Nat.ltb_spec 200 (List.length o)); [lia|]. exact IH.
Qed.

(** The loop stops at the first option that is not fine, and there the
    emptiness test comes first. *)
Lemma validateOptions_scan (before after : list JsString) (o : JsString) :
  Forall option_ok before ->
  validateOptions (before ++ o :: after) =
    if List.length o <? 1 then invalid E_option_empty
    else if 200 <? List.length o then invalid E_option_long
    else validateOptions after.
Proof.
  induction 1 as [|b rest [Hlo Hhi] _ IH]; simpl.
  - now rewrite falsy_length.
  - rewrite falsy_length.
    destruct (Nat.ltb_spec (List.length b) 1); [lia|].
    destruct (Nat.ltb_spec 200 (List.length b)); [lia|]. exact IH.
Qed.

Lemma validatePollInput_options (question : JsString) (options : list JsString) :
  3 <= List.length question <= 500 -> 2 <= List.length options <= 10 ->
  validatePollInput question options = validateOptions options.
Proof.
  intros [Hq1 Hq2] [Ho1 Ho2]. unfold validatePollInput. rewrite falsy_short.
  destruct (Nat.ltb_spec (List.length question) 3); [lia|].
  destruct (Nat.ltb_spec 500 (List.length question)); [lia|].
  destruct (Nat.ltb_spec (List.length options) 2); [lia|].
  destruct (Nat.ltb_spec 10 (List.length options)); [lia|]. reflexivity.
Qed.

(** The claim of C5 fails where an over-long option precedes an empty one:
    the specification's order reports the empty option, the code the long
    one. *)
Lemma validatePollInput_long_before_empty :
  validatePollInput_spec (js "abc") [long_option; []] = invalid E_option_empty
  /\ validatePollInput (js "abc") [long_option; []] = invalid E_option_long
  /\ validatePollInput (js "abc") [long_option; []]
     <> validatePollInput_spec (js "abc") [long_option; []].
Proof. repeat split; try reflexivity. vm_compute. discriminate. Qed.

(** C5, amended.  The four rules on the question and on the number of
    options are applied in the stated order, each short-circuiting the
    rest.  The options are then scanned once, in list order: the reason
    reported is that of the first option that is empty or longer than 200
    characters, whichever of the two it is; within one option emptiness is
    tested first.  With every option fine the input is valid. *)
Theorem validatePollInput_first_failure (question : JsString) (options : list JsString) :
  (List.length question < 3 ->
     validatePollInput question options = invalid E_question_short)
  /\ (3 <= List.length question -> 500 < List.length question ->
     validatePollInput question options = invalid E_question_long)
  /\ (3 <= List.length question <= 500 -> List.length options < 2 ->
     validatePollInput question options = invalid E_options_few)
  /\ (3 <= List.length question <= 500 -> 10 < List.length options ->
     validatePollInput question options = invalid E_options_many)
  /\ (3 <= List.length question <= 500 -> 2 <= List.length options <= 10 ->
     forall before o after,
       options = before ++ o :: after -> Forall option_ok before ->
       (o = [] -> validatePollInput question options = invalid E_option_empty)
       /\ (200 < List.length o ->
           validatePollInput question options = invalid E_option_long))
  /\ (3 <= List.length question <= 500 -> 2 <= List.length options <= 10 ->
     Forall option_ok options -> validatePollInput question options = valid).
Proof.
  repeat split.
  - intros H. unfold validatePollInput. rewrite falsy_short.
    destruct (Nat.ltb_spec (List.length question) 3); [reflexivity|lia].
  - intros H1 H2. unfold validatePollInput. rewrite falsy_short.
    destruct (Nat.ltb_spec (List.length question) 3); [lia|].
    destruct (Nat.ltb_spec 500 (List.length question)); [reflexivity|lia].
  - intros [H1 H2] H3. unfold validatePollInput. rewrite falsy_short.
    destruct (Nat.ltb_spec (List.length question) 3); [lia|].
    destruct (Nat.ltb_spec 500 (List.length question)); [lia|].
    destruct (Nat.ltb_spec (List.length options) 2); [reflexivity|lia].
  - intros [H1 H2] H3. unfold validatePollInput. rewrite falsy_short.
    destruct (Nat.ltb_spec (List.length question) 3); [lia|].
    destruct (Nat.ltb_spec 500 (List.length question)); [lia|].
    destruct (Nat.ltb_spec (List.length options) 2); [lia|].
    destruct (Nat.ltb_spec 10 (List.length options)); [reflexivity|lia].
  - intros ->. rewrite validatePollInput_options by assumption.
    subst options. now rewrite validateOptions_scan.
  - intros Hlong. rewrite validatePollInput_options by assumption.
    subst options. rewrite validateOptions_scan by assumption.
    destruct (Nat.ltb_spec (List.length o) 1); [lia|].
    destruct (Nat.ltb_spec 200 (List.length o)); [reflexivity|lia].
  - intros Hq Ho Hall. rewrite validatePollInput_options by assumption.
    now apply validateOptions_ok.
Qed.

(** The amended rule at work on the input that refutes the stated order. *)
Lemma validatePollInput_first_failure_witness :
  validatePollInput (js "abc") [long_option; []] = invalid E_option_long.
Proof.
  refine (proj2 (proj1 (proj2 (proj2 (proj2 (proj2
    (validatePollInput_first_failure (js "abc") [long_option; []])))))
    _ _ [] long_option [[]] eq_refl (Forall_nil _)) _).
  - simpl; lia.
  - simpl; lia.
  - unfold long_option. rewrite repeat_length. lia.
Defined.

(** ** Running the store *)

Lemma filter_none {A} (f : A -> bool) (l : list A) :
  (forall x, In x l -> f x = false) -> filter f l = [].
Proof.
  induction l as [|x l IH]; simpl; intros H; [reflexivity|].
  rewrite (H x) by now left. apply IH. intros y Hy. apply H. now right.
Qed.

Lemma filter_all {A} (f : A -> bool) (l : list A) :
  (forall x, In x l -> f x = true) -> filter f l = l.
Proof.
  induction l as [|x l IH]; simpl; intros H; [reflexivity|].
  rewrite (H x) by now left. f_equal. apply IH. intros y Hy. apply H. now right.
Qed.

Lemma map_fixed {A} (g : A -> A) (l : list A) :
  (forall x, In x l -> g x = x) -> List.map g l = l.
Proof.
  induction l as [|x l IH]; simpl; intros H; [reflexivity|].
  rewrite (H x) by now left. f_equal. apply IH. intros y Hy. apply H. now right.
Qed.

Lemma owned_by_true (uid : Uuid) (owner : option Uuid) :
  owned_by uid owner = true <-> owner = Some uid.
Proof.
  destruct owner as [o|]; simpl; [|split; discriminate].
  rewrite jsstring_eqb_eq. split; congruence.
Qed.

Lemma has_id_true (id : Uuid) (r : PollRow) : has_id id r = true <-> poll_id r = id.
Proof. apply jsstring_eqb_eq. Qed.

(** A row that is not the caller's poll [id] escapes the scoped filter. *)
Lemma scoped_false (id uid : Uuid) (r : PollRow) :
  (poll_id r = id -> poll_user_id r <> Some uid) -> scoped id uid r = false.
Proof.
  intros H. unfold scoped, poll_of.
  destruct (has_id id r) eqn:Hid; [|reflexivity].
  destruct (owned_by uid (poll_user_id r)) eqn:Ho; [|reflexivity].
  apply has_id_true in Hid. apply owned_by_true in Ho. now elim (H Hid).
Qed.

Ltac run_action :=
  unfold bind, ret, lift, roundtrip, next_fault, auth_getUser, revalidatePath;
  cbn [fst snd session tbl_polls tbl_votes faults next_uuid clock log
       record set_faults set_tables set_session].

(** ** Reading a poll by id *)

(** C8. An id that does not match the UUID pattern, such as ["abc"], gets
    the format error and a null poll, and the world is left as it was: no
    query is made.  An id that matches goes to the store, in one select on
    [polls]. *)
Theorem getPollById_checks_format_first (id : JsString) (w : World) :
  (regex_test uuidRegex id = false ->
     getPollById id w =
       (Returned {| poll := None; poll_error := Some "Invalid poll ID format"%string |}, w))
  /\ (regex_test uuidRegex id = true ->
     log (snd (getPollById id w)) = log w ++ [Query Polls Select])
  /\ regex_test uuidRegex (js "abc") = false.
Proof.
  split; [|split; [|reflexivity]]; intros H; unfold getPollById; rewrite H; simpl.
  - reflexivity.
  - unfold polls_select_single. run_action.
    destruct (faults w) as [|[msg|] fs]; cbn;
      destruct (single (filter (has_id id) (tbl_polls w))) as [[r|] [e|]];
      reflexivity.
Qed.

Lemma getPollById_checks_format_first_witness :
  getPollById (js "abc") (world_of Anonymous []) =
    (Returned {| poll := None; poll_error := Some "Invalid poll ID format"%string |},
     world_of Anonymous []).
Proof.
  apply (proj1 (getPollById_checks_format_first (js "abc") (world_of Anonymous []))).
  reflexivity.
Defined.

(** A well-formed id that names a stored poll is answered with that poll. *)
Lemma getPollById_found (id : JsString) (w : World) (r : PollRow) :
  regex_test uuidRegex id = true -> faults w = [] ->
  filter (has_id id) (tbl_polls w) = [r] ->
  fst (getPollById id w) = Returned {| poll := Some r; poll_error := None |}.
Proof.
  intros Hid Hf Hr. unfold getPollById, polls_select_single. rewrite Hid. simpl.
  run_action. rewrite Hf. cbn. rewrite Hr. reflexivity.
Qed.

(** ** Writes scoped to the owner *)

(** What the scoped delete leaves of the two tables when no row matches. *)
Lemma scoped_delete_misses (id uid : Uuid) (ps : list PollRow) (vs : list VoteRow) :
  (forall r, In r ps -> poll_id r = id -> poll_user_id r <> Some uid) ->
  filter (fun r => negb (scoped id uid r)) ps = ps
  /\ filter (fun v => negb (existsb (has_id (vote_poll_id v)) (filter (scoped id uid) ps))) vs = vs.
Proof.
  intros H.
  assert (Hs : forall r, In r ps -> scoped id uid r = false).
  { intros r Hr. apply scoped_false. now apply H. }
  split.
  - apply filter_all. intros r Hr. now rewrite Hs.
  - rewrite (filter_none Hs). now apply filter_all.
Qed.

Lemma scoped_update_misses (id uid : Uuid) (question : JsString)
  (options : list JsString) (ps : list PollRow) :
  (forall r, In r ps -> poll_id r = id -> poll_user_id r <> Some uid) ->
  List.map (fun r =>
    if scoped id uid r then
      {| poll_id := poll_id r; poll_user_id := poll_user_id r;
         poll_question := question; poll_options := options;
         poll_created_at := poll_created_at r;
         poll_updated_at := poll_updated_at r |}
    else r) ps = ps.
Proof.
  intros H. apply map_fixed. intros r Hr.
  now rewrite scoped_false by now apply H.
Qed.

(** C1. A signed-in caller [u] who does not own poll [p] runs [deletePoll]
    or [updatePoll] on it: the row of [p] is still there and both tables
    are exactly what they were, whatever the form and whatever the store
    answers; and unless the store reports a failure of its own the call
    returns [{ error: null }] (for [updatePoll], once the form has passed
    validation). *)
Theorem nonowner_write_is_silent (u p : Uuid) (r : PollRow) (formData : FormData)
  (w : World) :
  session w = SignedIn u ->
  In r (tbl_polls w) -> poll_id r = p ->
  (forall r', In r' (tbl_polls w) -> poll_id r' = p -> poll_user_id r' <> Some u) ->
  (In r (tbl_polls (snd (deletePoll p w)))
   /\ tbl_polls (snd (deletePoll p w)) = tbl_polls w
   /\ tbl_votes (snd (deletePoll p w)) = tbl_votes w
   /\ (faults w = [] -> fst (deletePoll p w) = Returned {| error := None |}))
  /\ (In r (tbl_polls (snd (updatePoll p formData w)))
   /\ tbl_polls (snd (updatePoll p formData w)) = tbl_polls w
   /\ tbl_votes (snd (updatePoll p formData w)) = tbl_votes w
   /\ (faults w = [] -> accepted formData ->
       fst (updatePoll p formData w) = Returned {| error := None |})).
Proof.
  intros Hs Hr Hp Hown.
  destruct (scoped_delete_misses (tbl_votes w) Hown) as [Hkept Hvotes].
  split.
  - assert (Hd : tbl_polls (snd (deletePoll p w)) = tbl_polls w
                 /\ tbl_votes (snd (deletePoll p w)) = tbl_votes w
                 /\ (faults w = [] -> fst (deletePoll p w) = Returned {| error := None |})).
    { unfold deletePoll, polls_delete. run_action. rewrite Hs. cbn.
      destruct (faults w) as [|[msg|] fs]; cbn; rewrite ?Hkept, ?Hvotes;
        repeat split; try reflexivity; discriminate. }
    destruct Hd as (Hd1 & Hd2 & Hd3). rewrite Hd1. auto.
  - assert (Hu : tbl_polls (snd (updatePoll p formData w)) = tbl_polls w
                 /\ tbl_votes (snd (updatePoll p formData w)) = tbl_votes w
                 /\ (faults w = [] -> accepted formData ->
                     fst (updatePoll p formData w) = Returned {| error := None |})).
    { unfold updatePoll, polls_update. run_action.
      destruct (readPollForm formData) as [[question options]|e] eqn:Hrf; cbn.
      - destruct (isValid (validatePollInput question options)) eqn:Hv; cbn.
        + rewrite Hs. cbn.
          destruct (faults w) as [|[msg|] fs]; cbn;
            rewrite ?(scoped_update_misses question options Hown);
            repeat split; try reflexivity; discriminate.
        + repeat split; try reflexivity.
          intros _ (q & o & Hread & Hok). rewrite Hrf in Hread.
          injection Hread as <- <-. congruence.
      - repeat split; try reflexivity.
        intros _ (q & o & Hread & _). rewrite Hrf in Hread. discriminate. }
    destruct Hu as (Hu1 & Hu2 & Hu3). rewrite Hu1. auto.
Qed.

Lemma nonowner_write_is_silent_witness :
  In colors (tbl_polls (snd (deletePoll colors_id (world_of (SignedIn bob) []))))
  /\ fst (deletePoll colors_id (world_of (SignedIn bob) [])) = Returned {| error := None |}
  /\ tbl_polls (snd (updatePoll colors_id rename_form (world_of (SignedIn bob) []))) = [colors]
  /\ fst (updatePoll colors_id rename_form (world_of (SignedIn bob) []))
     = Returned {| error := None |}.
Proof.
  destruct (@nonowner_write_is_silent bob colors_id colors rename_form
              (world_of (SignedIn bob) []) eq_refl (or_introl eq_refl) eq_refl)
    as [(Hd1 & _ & _ & Hd4) (_ & Hu2 & _ & Hu4)].
  - intros r' [<-|[]] _. vm_compute. discriminate.
  - split; [exact Hd1|]. split; [exact (Hd4 eq_refl)|]. split; [exact Hu2|].
    apply (Hu4 eq_refl). eexists; eexists; split; reflexivity.
Defined.

(** ** Voting *)

Lemma Qle_bool_false (x y : Q) : Qle_bool x y = false <-> (y < x)%Q.
Proof.
  split; intros H.
  - apply Qnot_le_lt. intros Hle. apply Qle_bool_iff in Hle. congruence.
  - destruct (Qle_bool x y) eqn:E; [|reflexivity].
    apply Qle_bool_iff in E. now apply Qlt_not_le in H.
Qed.

(** The first check on the index is a range check on numbers and nothing
    more. *)
Lemma index_rejected_iff (v : JsValue) : index_rejected v = true <-> outside_0_9 v.
Proof.
  destruct v as [| |b|[q| |negative]|s]; simpl; try tauto.
  - unfold num_gt, num_lt, num_of_nat.
    rewrite orb_true_iff, !negb_true_iff, !Qle_bool_false. reflexivity.
  - split; [discriminate|tauto].
  - destruct negative; simpl; tauto.
Qed.

Lemma index_accepted (v : JsValue) : ~ outside_0_9 v -> index_rejected v = false.
Proof.
  intros H. destruct (index_rejected v) eqn:E; [|reflexivity].
  now apply index_rejected_iff in E.
Qed.


Lemma filter_existsb {A} (f : A -> bool) (l : list A) (x : A) (rest : list A) :
  filter f l = x :: rest -> existsb f l = true.
Proof.
  intros H. apply existsb_exists. exists x.
  assert (Hin : In x (filter f l)) by (rewrite H; now left).
  now apply filter_In in Hin.
Qed.

Lemma single_not_one {A} (rows : list A) :
  List.length rows <> 1 -> single rows = (None, Some E_single).
Proof. destruct rows as [|x [|y rest]]; simpl; intros H; [reflexivity|lia|reflexivity]. Qed.

(** Whatever its arguments, [submitVote] turns away a malformed poll id
    and an index outside the range without any call. *)
Lemma submitVote_rejects_early (pollId : JsString) (v : JsValue) (w : World) :
  (regex_test uuidRegex pollId = false ->
     submitVote pollId v w = (Returned (failure "Invalid poll ID format"), w))
  /\ (regex_test uuidRegex pollId = true -> outside_0_9 v ->
     submitVote pollId v w = (Returned (failure "Invalid option index"), w)).
Proof.
  split.
  - intros H. unfold submitVote. now rewrite H.
  - intros H Hv. apply index_rejected_iff in Hv. unfold submitVote.
    now rewrite H, Hv.
Qed.

Section Respects.
Variable R : World -> World -> Prop.
Hypothesis R_refl : forall w, R w w.
Hypothesis R_trans : forall a b c, R a b -> R b c -> R a c.

Lemma respects_ret {A} (a : A) : respects R (ret a).
Proof. intros w. apply R_refl. Qed.

Lemma respects_lift {A} (c : Completion A) : respects R (lift c).
Proof. intros w. apply R_refl. Qed.

Lemma respects_bind {A B} (m : Action A) (k : A -> Action B) :
  respects R m -> (forall a, respects R (k a)) -> respects R (bind m k).
Proof.
  intros Hm Hk w. unfold bind. specialize (Hm w).
  destruct (m w) as [[a|e] w1]; simpl in *; [|exact Hm].
  eapply R_trans; [exact Hm|apply Hk].
Qed.

(** A query respects [R] when logging it, consuming a fault and running
    it each do. *)
Lemma respects_roundtrip {A} (t : Table) (v : Verb) (failed : string -> A)
  (run : World -> A * World) :
  (forall w, R w (record (Query t v) w)) ->
  (forall fs w, R w (set_faults fs w)) ->
  (forall w, R w (snd (run w))) ->
  respects R (roundtrip t v failed run).
Proof.
  intros Hrec Hfs Hrun w. unfold roundtrip, next_fault.
  eapply R_trans; [apply (Hrec w)|].
  destruct (faults (record (Query t v) w)) as [|[msg|] fs]; simpl.
  - specialize (Hrun (record (Query t v) w)).
    destruct (run (record (Query t v) w)); exact Hrun.
  - apply Hfs.
  - eapply R_trans; [apply (Hfs fs)|].
    specialize (Hrun (set_faults fs (record (Query t v) w))).
    destruct (run (set_faults fs (record (Query t v) w))); exact Hrun.
Qed.
End Respects.

Lemma log_grows_refl (w : World) : log_grows w w.
Proof. exists []. now rewrite app_nil_r. Qed.

Lemma log_grows_trans (a b c : World) : log_grows a b -> log_grows b c -> log_grows a c.
Proof.
  intros [r1 H1] [r2 H2]. exists (r1 ++ r2). now rewrite H2, H1, app_assoc.
Qed.

Lemma log_grows_same (w w' : World) : log w' = log w -> log_grows w w'.
Proof. intros H. exists []. now rewrite app_nil_r. Qed.

Lemma log_grows_record (c : Call) (w : World) : log_grows w (record c w).
Proof. now exists [c]. Qed.

(** Every step an action is made of only adds to the log. *)
Ltac log_grows_step :=
  match goal with
  | |- respects log_grows (bind _ _) =>
      apply (respects_bind log_grows_trans); [|intros]
  | |- respects log_grows (ret _) => apply (respects_ret log_grows_refl)
  | |- respects log_grows (lift _) => apply (respects_lift log_grows_refl)
  | |- respects log_grows (roundtrip _ _ _ _) =>
      apply (respects_roundtrip log_grows_trans);
      [intros; apply log_grows_record
      |intros; now apply log_grows_same
      |intros ?w; repeat match goal with
                         | |- context [match ?x with _ => _ end] => destruct x
                         end; now apply log_grows_same]
  | |- respects log_grows auth_getUser => intros ?w; apply log_grows_record
  | |- respects log_grows (revalidatePath _) => intros ?w; apply log_grows_record
  | |- respects log_grows (match ?x with _ => _ end) => destruct x
  | |- respects log_grows (let (_, _) := ?x in _) => destruct x
  end.

Lemma submitVote_log_grows (pollId : JsString) (v : JsValue) :
  respects log_grows (submitVote pollId v).
Proof.
  unfold submitVote, polls_select_options_single, votes_select_single, votes_insert.
  repeat log_grows_step.
Qed.

Lemma bind_run {A B} (m : Action A) (k : A -> Action B) (w w1 : World) (a : A) :
  m w = (Returned a, w1) -> bind m k w = k a w1.
Proof. intros H. unfold bind. now rewrite H. Qed.

(** A query that leaves the log to [roundtrip] returns, one entry later. *)
Lemma roundtrip_logged {A} (t : Table) (v : Verb) (failed : string -> A)
  (run : World -> A * World) (w : World) :
  (forall w0, log (snd (run w0)) = log w0) ->
  exists a w', roundtrip t v failed run w = (Returned a, w')
               /\ log w' = log w ++ [Query t v].
Proof.
  intros Hrun. unfold roundtrip, next_fault. simpl.
  destruct (faults w) as [|[msg|] fs].
  - specialize (Hrun (record (Query t v) w)).
    destruct (run (record (Query t v) w)) as [a w2]. now exists a, w2.
  - now eexists _, _.
  - specialize (Hrun (set_faults fs (record (Query t v) w))).
    destruct (run (set_faults fs (record (Query t v) w))) as [a w2].
    now exists a, w2.
Qed.

(** Past the two early checks the session is looked up and the poll
    fetched, whatever happens next. *)
Lemma submitVote_reaches_store (pollId : JsString) (v : JsValue) (w : World) :
  regex_test uuidRegex pollId = true -> ~ outside_0_9 v ->
  exists rest,
    log (snd (submitVote pollId v w)) = log w ++ AuthGetUser :: Query Polls Select :: rest.
Proof.
  intros H Hv. apply index_accepted in Hv. unfold submitVote.
  rewrite H, Hv. cbv beta iota delta [negb].
  erewrite bind_run by reflexivity.
  destruct (session w); cbv beta iota;
    unfold polls_select_options_single;
    match goal with
    | |- context [bind (roundtrip ?t ?q ?f ?r) ?k] =>
        destruct (@roundtrip_logged _ t q f r (record AuthGetUser w))
          as (a & w2 & Heq & Hlog); [reflexivity|];
        rewrite (bind_run k Heq);
        assert (Hk : respects log_grows (k a))
          by (unfold votes_select_single, votes_insert; repeat log_grows_step)
    end;
    destruct (Hk w2) as [rest Hrest]; exists rest;
    rewrite Hrest, Hlog; simpl; now rewrite <- !app_assoc.
Qed.

Arguments num_ge : simpl never.
Arguments as_integer : simpl never.
Arguments gen_random_uuid : simpl never.

Ltac run_vote Hid Hidx Hf Hr :=
  unfold submitVote, polls_select_options_single, votes_select_single, votes_insert;
  rewrite Hid, Hidx; run_action; cbn;
  let Hs := fresh "Hsession" in
  match goal with
  | |- context [session ?w] => destruct (session w) eqn:Hs
  end; cbn; rewrite ?Hf; cbn; rewrite ?Hr; cbn.

(** An index at or beyond the poll's number of options: the out-of-range
    error, after the session lookup and the fetch of the poll, and no
    write. *)
Lemma submitVote_out_of_range (pollId : Uuid) (n : Number) (w : World) (r : PollRow) :
  regex_test uuidRegex pollId = true ->
  index_rejected (JsNumber n) = false ->
  faults w = [] ->
  filter (has_id pollId) (tbl_polls w) = [r] ->
  num_ge n (num_of_nat (List.length (poll_options r))) = true ->
  submitVote pollId (JsNumber n) w =
    (Returned (failure "Invalid option index for this poll"),
     record (Query Polls Select) (record AuthGetUser w)).
Proof.
  intros Hid Hidx Hf Hr Hge. run_vote Hid Hidx Hf Hr; now rewrite Hge.
Qed.

(** A signed-in caller with exactly one vote on the poll: the duplicate
    error, and no write. *)
Lemma submitVote_duplicate (pollId u : Uuid) (n : Number) (w : World) (r : PollRow)
  (prior : VoteRow) :
  regex_test uuidRegex pollId = true ->
  index_rejected (JsNumber n) = false ->
  faults w = [] ->
  filter (has_id pollId) (tbl_polls w) = [r] ->
  num_ge n (num_of_nat (List.length (poll_options r))) = false ->
  session w = SignedIn u ->
  filter (vote_by pollId u) (tbl_votes w) = [prior] ->
  submitVote pollId (JsNumber n) w =
    (Returned (failure "You have already voted on this poll"),
     record (Query Votes Select) (record (Query Polls Select) (record AuthGetUser w))).
Proof.
  intros Hid Hidx Hf Hr Hge Hs Hprior.
  run_vote Hid Hidx Hf Hr; try discriminate.
  injection Hs as ->. rewrite Hge. cbn. rewrite Hf. cbn. now rewrite Hprior.
Qed.

(** The insert goes through for a whole-number index within the poll's
    options when the duplicate check finds no single prior vote: the table
    gains one row, carrying the caller's id or null. *)
Lemma submitVote_inserts (pollId : Uuid) (n : Number) (i : Z) (w : World) (r : PollRow) :
  regex_test uuidRegex pollId = true ->
  index_rejected (JsNumber n) = false ->
  faults w = [] ->
  filter (has_id pollId) (tbl_polls w) = [r] ->
  num_ge n (num_of_nat (List.length (poll_options r))) = false ->
  as_integer n = Some i ->
  (forall u, session w = SignedIn u ->
             List.length (filter (vote_by pollId u) (tbl_votes w)) <> 1) ->
  fst (submitVote pollId (JsNumber n) w) = Returned success
  /\ tbl_polls (snd (submitVote pollId (JsNumber n) w)) = tbl_polls w
  /\ tbl_votes (snd (submitVote pollId (JsNumber n) w))
     = tbl_votes w ++ [new_vote w pollId (caller (session w)) i]
  /\ faults (snd (submitVote pollId (JsNumber n) w)) = []
  /\ session (snd (submitVote pollId (JsNumber n) w)) = session w.
Proof.
  intros Hid Hidx Hf Hr Hge Hint Hnone.
  pose proof (filter_existsb Hr) as Hex.
  assert (Hn : exists q, n = Finite q).
  { destruct n as [q| |b]; [now exists q|discriminate Hint|discriminate Hint]. }
  destruct Hn as [q ->].
  run_vote Hid Hidx Hf Hr; rewrite Hge; cbn; rewrite ?Hf; cbn.
  - rewrite single_not_one
      by (rewrite length_map; now apply Hnone).
    cbn. rewrite Hf. cbn. rewrite Hint, Hex. cbn. now rewrite Hf.
  - rewrite Hint, Hex. cbn. now rewrite Hf.
  - rewrite Hint, Hex. cbn. now rewrite Hf.
Qed.

(** ** Actions that do not look at the session *)

Lemma session_blind_ret {A} (a : A) : session_blind (ret a).
Proof. intros s w. reflexivity. Qed.

Lemma session_blind_bind {A B} (m : Action A) (k : A -> Action B) :
  session_blind m -> (forall a, session_blind (k a)) -> session_blind (bind m k).
Proof.
  intros Hm Hk s w. unfold bind. rewrite Hm.
  destruct (m w) as [[a|e] w1]; simpl; [apply Hk|reflexivity].
Qed.

Lemma session_blind_roundtrip {A} (t : Table) (v : Verb) (failed : string -> A)
  (run : World -> A * World) :
  (forall s w, run (set_session s w) = (fst (run w), set_session s (snd (run w)))) ->
  session_blind (roundtrip t v failed run).
Proof.
  intros Hrun s w. unfold roundtrip, next_fault. simpl.
  destruct (faults w) as [|[msg|] fs]; simpl.
  - change (record (Query t v) (set_session s w))
      with (set_session s (record (Query t v) w)).
    rewrite Hrun. now destruct (run (record (Query t v) w)).
  - reflexivity.
  - change (set_faults fs (record (Query t v) (set_session s w)))
      with (set_session s (set_faults fs (record (Query t v) w))).
    rewrite Hrun. now destruct (run (set_faults fs (record (Query t v) w))).
Qed.

Ltac session_blind_step :=
  match goal with
  | |- session_blind (bind _ _) => apply session_blind_bind; [|intros]
  | |- session_blind (ret _) => apply session_blind_ret
  | |- session_blind (roundtrip _ _ _ _) =>
      apply session_blind_roundtrip; intros ?s ?w; cbn;
      repeat match goal with
             | |- context [match ?x with _ => _ end] => destruct x
             end; reflexivity
  | |- session_blind (match ?x with _ => _ end) => destruct x
  | |- session_blind (let (_, _) := ?x in _) => destruct x
  end.

(** C10.  When the identity lookup fails, or finds nobody, [submitVote]
    reports no authentication error: the call returns exactly what it
    returns to an anonymous caller and does to the store exactly what it
    does for one, so the two cannot be told apart; and where the vote goes
    through, the row it adds has a null [user_id]. *)
Theorem submitVote_auth_failure_is_anonymous (pollId : JsString) (v : JsValue)
  (w : World) :
  caller (session w) = None ->
  submitVote pollId v w =
    (fst (submitVote pollId v (set_session Anonymous w)),
     set_session (session w) (snd (submitVote pollId v (set_session Anonymous w))))
  /\ (forall n i r,
        v = JsNumber n ->
        regex_test uuidRegex pollId = true ->
        index_rejected v = false ->
        faults w = [] ->
        filter (has_id pollId) (tbl_polls w) = [r] ->
        num_ge n (num_of_nat (List.length (poll_options r))) = false ->
        as_integer n = Some i ->
        fst (submitVote pollId v w) = Returned success
        /\ tbl_votes (snd (submitVote pollId v w))
           = tbl_votes w ++ [new_vote w pollId None i]).
Proof.
  intros Hnobody. split.
  - assert (Hw : w = set_session (session w) w) by now destruct w.
    rewrite Hw at 1. clear Hw.
    unfold submitVote.
    destruct (regex_test uuidRegex pollId); [|reflexivity].
    destruct (index_rejected v); [reflexivity|].
    cbv beta iota delta [negb].
    assert (Huser : forall s w0, caller s = None ->
              exists e, auth_getUser (set_session s w0)
                        = (Returned (None, e), set_session s (record AuthGetUser w0))).
    { intros s w0 Hs. destruct s; try discriminate; now eexists. }
    destruct (Huser (session w) w Hnobody) as [e1 H1].
    destruct (Huser Anonymous w eq_refl) as [e2 H2].
    rewrite (bind_run _ H1), (bind_run _ H2). cbv beta iota.
    match goal with
    | |- ?k (set_session ?s1 ?w1) = (fst (?k (set_session ?s2 ?w1)), _) =>
        assert (Hk : session_blind k)
          by (unfold polls_select_options_single, votes_select_single, votes_insert;
              repeat session_blind_step);
        rewrite (Hk s1 w1), (Hk s2 w1)
    end.
    reflexivity.
  - intros n i r -> Hid Hidx Hf Hr Hge Hint.
    destruct (@submitVote_inserts pollId n i w r Hid Hidx Hf Hr Hge Hint)
      as (Hres & _ & Hvotes & _).
    + intros u Hu. rewrite Hu in Hnobody. discriminate.
    + rewrite Hnobody in Hvotes. now split.
Qed.

Lemma submitVote_auth_failure_is_anonymous_witness :
  fst (submitVote colors_id (index 1) (world_of (AuthFailure "fetch failed") []))
    = Returned success
  /\ tbl_votes (snd (submitVote colors_id (index 1)
                       (world_of (AuthFailure "fetch failed") [])))
     = [vote_of 1 None 1].
Proof.
  exact (proj2 (@submitVote_auth_failure_is_anonymous colors_id (index 1)
                  (world_of (AuthFailure "fetch failed") []) eq_refl)
           _ 1%Z colors eq_refl eq_refl eq_refl eq_refl eq_refl eq_refl eq_refl).
Defined.

(** The claim of C2 fails at the index 1.5: it is no integer, yet the first
    check lets it through; the session is looked up, the poll fetched and
    the insert attempted, and it is the store that turns the value away. *)
Lemma submitVote_fraction_reaches_store :
  integer_0_to_9 one_and_a_half = false
  /\ fst (submitVote colors_id one_and_a_half (world_of Anonymous []))
     = Returned (failure E_integer_syntax)
  /\ log (snd (submitVote colors_id one_and_a_half (world_of Anonymous [])))
     = [AuthGetUser; Query Polls Select; Query Votes Insert]
  /\ submitVote colors_id one_and_a_half (world_of Anonymous [])
     <> (Returned (failure "Invalid option index"), world_of Anonymous []).
Proof.
  split; [reflexivity|]. split; [reflexivity|]. split; [reflexivity|].
  vm_compute. discriminate.
Qed.

(** C2, amended.  For a well-formed poll id, [submitVote] turns away with
    "Invalid option index", before any call, every index that is not a
    number and every number below 0 or above 9; it does not ask for an
    integer, and every other value (a fraction within the range, a NaN)
    goes on to the session lookup and the fetch of the poll.  The index is
    then held against the poll's own options: on a stored poll with exactly
    three options and a store that answers, index 5 gets the out-of-range
    error and nothing is written, and index 2 succeeds and adds one vote
    when the caller is anonymous or has no vote on the poll yet. *)
Theorem submitVote_index_checks (pollId : Uuid) (w : World) (r : PollRow) :
  regex_test uuidRegex pollId = true ->
  (forall v, outside_0_9 v ->
     submitVote pollId v w = (Returned (failure "Invalid option index"), w))
  /\ (forall v, ~ outside_0_9 v ->
     exists rest, log (snd (submitVote pollId v w))
                  = log w ++ AuthGetUser :: Query Polls Select :: rest)
  /\ (faults w = [] ->
      filter (has_id pollId) (tbl_polls w) = [r] ->
      List.length (poll_options r) = 3 ->
      (fst (submitVote pollId (index 5) w)
         = Returned (failure "Invalid option index for this poll")
       /\ tbl_votes (snd (submitVote pollId (index 5) w)) = tbl_votes w
       /\ tbl_polls (snd (submitVote pollId (index 5) w)) = tbl_polls w)
      /\ ((forall u, session w = SignedIn u ->
                     filter (vote_by pollId u) (tbl_votes w) = []) ->
          fst (submitVote pollId (index 2) w) = Returned success
          /\ tbl_votes (snd (submitVote pollId (index 2) w))
             = tbl_votes w ++ [new_vote w pollId (caller (session w)) 2]
          /\ tbl_polls (snd (submitVote pollId (index 2) w)) = tbl_polls w)).
Proof.
  intros Hid. split; [|split].
  - intros v Hv. now apply submitVote_rejects_early.
  - intros v Hv. now apply submitVote_reaches_store.
  - intros Hf Hr Hlen. unfold index. split.
    + rewrite (@submitVote_out_of_range pollId (Finite (inject_Z 5)) w r);
        try assumption; try reflexivity.
      * now split.
      * now rewrite Hlen.
    + intros Hfresh.
      destruct (@submitVote_inserts pollId (Finite (inject_Z 2)) 2 w r)
        as (Hres & Hpolls & Hvotes & _); try assumption; try reflexivity.
      * now rewrite Hlen.
      * intros u Hu. now rewrite (Hfresh u Hu).
      * now repeat split.
Qed.

Lemma submitVote_index_checks_witness :
  fst (submitVote colors_id (index 5) (world_of (SignedIn bob) []))
    = Returned (failure "Invalid option index for this poll")
  /\ fst (submitVote colors_id (index 2) (world_of (SignedIn bob) []))
     = Returned success
  /\ tbl_votes (snd (submitVote colors_id (index 2) (world_of (SignedIn bob) [])))
     = [vote_of 1 (Some bob) 2].
Proof.
  destruct (@submitVote_index_checks colors_id (world_of (SignedIn bob) []) colors
              eq_refl) as (_ & _ & H).
  destruct (H eq_refl eq_refl eq_refl) as [(H5 & _) H2].
  destruct (H2 (fun u _ => eq_refl)) as (Hres & Hvotes & _).
  split; [exact H5|]. split; [exact Hres|exact Hvotes].
Defined.

(** ** Duplicate votes *)

Lemma vote_by_new_vote (w : World) (pollId u : Uuid) (i : Z) :
  vote_by pollId u (new_vote w pollId (Some u) i) = true.
Proof. unfold vote_by. simpl. now rewrite !jsstring_eqb_refl. Qed.

(** X7.  A signed-in caller who votes for the first time and then again: the
    first call adds the vote, the second gets the duplicate error and adds
    nothing. *)
Lemma submitVote_twice (pollId u : Uuid) (n m : Number) (i : Z) (w : World) (r : PollRow) :
  regex_test uuidRegex pollId = true ->
  index_rejected (JsNumber n) = false -> index_rejected (JsNumber m) = false ->
  faults w = [] ->
  filter (has_id pollId) (tbl_polls w) = [r] ->
  num_ge n (num_of_nat (List.length (poll_options r))) = false ->
  num_ge m (num_of_nat (List.length (poll_options r))) = false ->
  as_integer n = Some i ->
  session w = SignedIn u ->
  filter (vote_by pollId u) (tbl_votes w) = [] ->
  let w1 := snd (submitVote pollId (JsNumber n) w) in
  fst (submitVote pollId (JsNumber n) w) = Returned success
  /\ fst (submitVote pollId (JsNumber m) w1)
     = Returned (failure "You have already voted on this poll")
  /\ tbl_votes (snd (submitVote pollId (JsNumber m) w1)) = tbl_votes w1.
Proof.
  intros Hid Hn Hm Hf Hr Hgn Hgm Hint Hs Hnone w1.
  destruct (@submitVote_inserts pollId n i w r Hid Hn Hf Hr Hgn Hint)
    as (Hres & Hpolls & Hvotes & Hf1 & Hs1).
  { intros u' Hu'. rewrite Hs in Hu'. injection Hu' as <-. now rewrite Hnone. }
  fold w1 in Hpolls, Hvotes, Hf1, Hs1.
  split; [exact Hres|].
  rewrite (@submitVote_duplicate pollId u m w1 r
             (new_vote w pollId (Some u) i)); try assumption.
  - now split.
  - now rewrite Hpolls.
  - now rewrite Hs1.
  - rewrite Hvotes, Hs, filter_app, Hnone. simpl.
    now rewrite vote_by_new_vote.
Qed.

(** X8.  Anonymous votes pile up: [k] calls in a row add [k] rows. *)
Lemma submitVotes_anonymous (k : nat) (pollId : Uuid) (n : Number) (i : Z)
  (w : World) (r : PollRow) :
  regex_test uuidRegex pollId = true ->
  index_rejected (JsNumber n) = false ->
  faults w = [] ->
  filter (has_id pollId) (tbl_polls w) = [r] ->
  num_ge n (num_of_nat (List.length (poll_options r))) = false ->
  as_integer n = Some i ->
  caller (session w) = None ->
  List.length (tbl_votes (submitVotes k pollId (JsNumber n) w))
    = List.length (tbl_votes w) + k
  /\ forall x, In x (tbl_votes (submitVotes k pollId (JsNumber n) w)) ->
               In x (tbl_votes w) \/ vote_user_id x = None.
Proof.
  intros Hid Hidx. revert w.
  induction k as [|k IH]; intros w Hf Hr Hge Hint Hnobody; simpl.
  - split; [lia|auto].
  - destruct (@submitVote_inserts pollId n i w r Hid Hidx Hf Hr Hge Hint)
      as (_ & Hpolls & Hvotes & Hf1 & Hs1).
    { intros u Hu. rewrite Hu in Hnobody. discriminate. }
    destruct (IH (snd (submitVote pollId (JsNumber n) w))) as [Hlen Hnull];
      try assumption.
    + now rewrite Hpolls.
    + now rewrite Hs1.
    + split.
      * rewrite Hlen, Hvotes, length_app. simpl. lia.
      * intros x Hx. destruct (Hnull x Hx) as [Hold|Hnone]; [|now right].
        rewrite Hvotes in Hold. apply in_app_or in Hold as [Hold|[<-|[]]].
        -- now left.
        -- right. simpl. exact Hnobody.
Qed.

(** C3.  The claim: a signed-in caller with a vote on the poll gets the
    duplicate error and nothing is inserted.  It holds with exactly one
    such vote ([submitVote_duplicate], [submitVote_twice]), and the
    anonymous half holds as stated ([submitVotes_anonymous]); but the
    duplicate check reads the prior votes through [.single()], which
    answers null as soon as there are two of them, and the vote is then
    written: here Bob, who has voted twice already, votes a third time. *)
Theorem submitVote_after_two_votes :
  filter (vote_by colors_id bob)
         (tbl_votes (world_of (SignedIn bob)
                              [vote_of 1 (Some bob) 0; vote_of 2 (Some bob) 1]))
    = [vote_of 1 (Some bob) 0; vote_of 2 (Some bob) 1]
  /\ fst (submitVote colors_id (index 2)
            (world_of (SignedIn bob) [vote_of 1 (Some bob) 0; vote_of 2 (Some bob) 1]))
     = Returned {| error := None |}
  /\ tbl_votes (snd (submitVote colors_id (index 2)
            (world_of (SignedIn bob) [vote_of 1 (Some bob) 0; vote_of 2 (Some bob) 1])))
     = [vote_of 1 (Some bob) 0; vote_of 2 (Some bob) 1; vote_of 3 (Some bob) 2].
Proof. repeat split; reflexivity. Qed.

(** ** Creating and updating a poll *)

Lemma map_sanitizeInput_text (values : list FormDataEntryValue) :
  Forall is_text values -> exists ss, map_sanitizeInput values = Returned ss.
Proof.
  induction 1 as [|v rest [s ->] _ [ss IH]]; simpl.
  - now exists [].
  - rewrite IH. now eexists.
Qed.

Lemma map_sanitizeInput_In (values : list FormDataEntryValue) (ss : list JsString)
  (o : JsString) :
  map_sanitizeInput values = Returned ss -> In o ss ->
  exists raw, In (FormString raw) values /\ o = sanitizeInput raw.
Proof.
  revert ss. induction values as [|v rest IH]; simpl; intros ss H Ho.
  - injection H as <-. destruct Ho.
  - destruct v as [s|name]; simpl in H; [|discriminate].
    destruct (map_sanitizeInput rest) as [ss'|e]; [|discriminate].
    injection H as <-. destruct Ho as [<-|Ho].
    + exists s. split; [now left|reflexivity].
    + destruct (IH ss' eq_refl Ho) as (raw & Hin & Heq).
      exists raw. split; [now right|exact Heq].
Qed.

Lemma Forall_filter {A} (P : A -> Prop) (f : A -> bool) (l : list A) :
  Forall P l -> Forall P (filter f l).
Proof.
  induction 1 as [|x l Hx _ IH]; simpl; [constructor|].
  destruct (f x); [now constructor|exact IH].
Qed.

(** With a string for question and strings for options the form is read
    without a throw, and the question read is the sanitized one. *)
Lemma readPollForm_text (formData : FormData) (raw : JsString) :
  get "question" formData = Some (FormString raw) ->
  Forall is_text (getAll "options" formData) ->
  exists options, readPollForm formData = Returned (sanitizeInput raw, options).
Proof.
  intros Hq Ho. unfold readPollForm. rewrite Hq. simpl.
  destruct (map_sanitizeInput_text (Forall_filter truthy Ho)) as [ss ->].
  now exists ss.
Qed.

Lemma validatePollInput_question (question : JsString) (options : list JsString) :
  List.length question < 3 \/ 500 < List.length question ->
  exists msg, (msg = E_question_short \/ msg = E_question_long)
              /\ validatePollInput question options = invalid msg.
Proof.
  intros H. unfold validatePollInput. rewrite falsy_short.
  destruct (Nat.ltb_spec (List.length question) 3).
  - exists E_question_short. auto.
  - destruct (Nat.ltb_spec 500 (List.length question)); [|lia].
    exists E_question_long. auto.
Qed.

(** A form the validator turns away ends both actions at once: the
    reason is returned and the world is untouched. *)
Lemma rejected_form_stops (formData : FormData) (question : JsString)
  (options : list JsString) (msg : string) (pollId : JsString) (w : World) :
  readPollForm formData = Returned (question, options) ->
  validatePollInput question options = invalid msg ->
  createPoll formData w = (Returned (failure msg), w)
  /\ updatePoll pollId formData w = (Returned (failure msg), w).
Proof.
  intros Hread Hv. unfold createPoll, updatePoll, bind, lift.
  rewrite Hread, Hv. split; reflexivity.
Qed.

(** The claim of C7 fails for a question of 501 characters that sanitizing
    brings down to 500: Alice's poll is created, and her poll updated. *)
Lemma padded_question_accepted :
  List.length padded_question = 501
  /\ fst (createPoll (color_form padded_question [js "Red"; js "Blue"])
            (world_of (SignedIn alice) []))
     = Returned {| error := None |}
  /\ List.length (tbl_polls (snd (createPoll (color_form padded_question [js "Red"; js "Blue"])
                                    (world_of (SignedIn alice) []))))
     = 2
  /\ fst (updatePoll colors_id (color_form padded_question [js "Red"; js "Blue"])
            (world_of (SignedIn alice) []))
     = Returned {| error := None |}
  /\ List.map poll_question
       (tbl_polls (snd (updatePoll colors_id (color_form padded_question [js "Red"; js "Blue"])
                          (world_of (SignedIn alice) []))))
     = [repeat 97%N 500].
Proof. repeat split; vm_compute; reflexivity. Qed.

(** C7, amended.  The length that counts is the one of the sanitized
    question (trimmed, angle brackets removed).  When it is below 3 or
    above 500 -- as it is for every submitted question shorter than 3
    characters -- [createPoll] and [updatePoll] return the validator's
    reason for the question and leave the world untouched: no call, no
    write. *)
Theorem short_or_long_question_rejected (formData : FormData) (raw : JsString)
  (pollId : JsString) (w : World) :
  get "question" formData = Some (FormString raw) ->
  Forall is_text (getAll "options" formData) ->
  List.length raw < 3
  \/ List.length (sanitizeInput raw) < 3
  \/ 500 < List.length (sanitizeInput raw) ->
  exists msg,
    (msg = E_question_short \/ msg = E_question_long)
    /\ createPoll formData w = (Returned {| error := Some msg |}, w)
    /\ updatePoll pollId formData w = (Returned {| error := Some msg |}, w).
Proof.
  intros Hq Ho Hlen.
  destruct (readPollForm_text Hq Ho) as [options Hread].
  destruct (@validatePollInput_question (sanitizeInput raw) options) as (msg & Hmsg & Hv).
  { pose proof (sanitizeInput_length raw). lia. }
  exists msg. split; [exact Hmsg|].
  exact (rejected_form_stops pollId w Hread Hv).
Qed.

Lemma short_or_long_question_rejected_witness :
  exists msg,
    (msg = E_question_short \/ msg = E_question_long)
    /\ createPoll (color_form (js " <a> ") [js "Red"; js "Blue"]) (world_of (SignedIn alice) [])
       = (Returned {| error := Some msg |}, world_of (SignedIn alice) [])
    /\ updatePoll colors_id (color_form (js " <a> ") [js "Red"; js "Blue"])
         (world_of (SignedIn alice) [])
       = (Returned {| error := Some msg |}, world_of (SignedIn alice) []).
Proof.
  apply (@short_or_long_question_rejected
           (color_form (js " <a> ") [js "Red"; js "Blue"]) (js " <a> ")
           colors_id (world_of (SignedIn alice) []) eq_refl).
  - repeat constructor; now eexists.
  - right. left. vm_compute. lia.
Defined.

(** ** Empty option entries *)

Lemma validateOptions_empty_reason (options : list JsString) :
  validateOptions options = invalid E_option_empty -> In [] options.
Proof.
  induction options as [|o rest IH]; simpl; [discriminate|].
  rewrite falsy_length. destruct o as [|c o'].
  - now left.
  - simpl. destruct (200 <? S (List.length o')); [discriminate|].
    intros H. right. now apply IH.
Qed.

Lemma validatePollInput_empty_reason (question : JsString) (options : list JsString) :
  validatePollInput question options = invalid E_option_empty -> In [] options.
Proof.
  unfold validatePollInput.
  destruct (falsy question || (List.length question <? 3)); [discriminate|].
  destruct (500 <? List.length question); [discriminate|].
  destruct (List.length options <? 2); [discriminate|].
  destruct (10 <? List.length options); [discriminate|].
  apply validateOptions_empty_reason.
Qed.

(** What the form hands to the validator when its option entries are the
    strings [raws]: the empty ones are gone, the others are sanitized. *)
Lemma readPollForm_options (formData : FormData) (rawq : JsString) (raws : list JsString) :
  get "question" formData = Some (FormString rawq) ->
  getAll "options" formData = List.map FormString raws ->
  readPollForm formData =
    Returned (sanitizeInput rawq,
              List.map sanitizeInput (filter (fun s => negb (falsy s)) raws)).
Proof.
  intros Hq Ho. unfold readPollForm. rewrite Hq, Ho. simpl. clear Ho.
  assert (H : map_sanitizeInput (filter truthy (List.map FormString raws))
              = Returned (List.map sanitizeInput (filter (fun s => negb (falsy s)) raws))).
  { induction raws as [|s raws IH]; simpl; [reflexivity|].
    destruct (falsy s); simpl; [exact IH|]. now rewrite IH. }
  now rewrite H.
Qed.

(** C9.  [createPoll] and [updatePoll] drop the empty-string entries of the
    option list before they sanitize and validate.  A submission with a
    valid question and, for options, one non-empty string and one empty
    string (in either order) is turned away with "At least 2 options are
    required.", not with the empty-option reason.  When the validator does
    give the empty-option reason, some submitted option was a non-empty
    string that sanitizing emptied, as ["<>"] is. *)
Theorem empty_options_dropped_before_validation :
  (forall formData rawq raws,
     get "question" formData = Some (FormString rawq) ->
     getAll "options" formData = List.map FormString raws ->
     readPollForm formData =
       Returned (sanitizeInput rawq,
                 List.map sanitizeInput (filter (fun s => negb (falsy s)) raws)))
  /\ (forall formData rawq s pollId w,
     get "question" formData = Some (FormString rawq) ->
     3 <= List.length (sanitizeInput rawq) <= 500 ->
     s <> [] ->
     getAll "options" formData = [FormString s; FormString []]
     \/ getAll "options" formData = [FormString []; FormString s] ->
     createPoll formData w = (Returned {| error := Some E_options_few |}, w)
     /\ updatePoll pollId formData w = (Returned {| error := Some E_options_few |}, w))
  /\ (forall formData question options,
     readPollForm formData = Returned (question, options) ->
     validatePollInput question options = invalid E_option_empty ->
     exists raw, In (FormString raw) (getAll "options" formData)
                 /\ raw <> [] /\ sanitizeInput raw = [])
  /\ (forall pollId w,
     createPoll (color_form (js "Favorite color?") [js "Red"; js "<>"]) w
       = (Returned {| error := Some E_option_empty |}, w)
     /\ updatePoll pollId (color_form (js "Favorite color?") [js "Red"; js "<>"]) w
       = (Returned {| error := Some E_option_empty |}, w)).
Proof.
  split; [|split; [|split]].
  - intros formData rawq raws. apply readPollForm_options.
  - intros formData rawq s pollId w Hq Hlen Hs Ho.
    assert (Hread : readPollForm formData = Returned (sanitizeInput rawq, [sanitizeInput s])).
    { destruct Ho as [Ho|Ho].
      - rewrite (@readPollForm_options formData rawq [s; []] Hq Ho).
        destruct s; [now elim Hs|reflexivity].
      - rewrite (@readPollForm_options formData rawq [[]; s] Hq Ho).
        destruct s; [now elim Hs|reflexivity]. }
    apply (rejected_form_stops pollId w Hread).
    unfold validatePollInput. rewrite falsy_short.
    destruct (Nat.ltb_spec (List.length (sanitizeInput rawq)) 3); [lia|].
    destruct (Nat.ltb_spec 500 (List.length (sanitizeInput rawq))); [lia|].
    reflexivity.
  - intros formData question options Hread Hv.
    apply validatePollInput_empty_reason in Hv.
    unfold readPollForm in Hread.
    destruct (call_sanitizeInput (get "question" formData)); [|discriminate].
    destruct (map_sanitizeInput (filter truthy (getAll "options" formData)))
      as [ss|e] eqn:Hmap; [|discriminate].
    injection Hread as _ <-.
    destruct (map_sanitizeInput_In Hmap Hv) as (raw & Hin & Heq).
    apply filter_In in Hin as [Hin Htruthy].
    exists raw. split; [exact Hin|]. split; [|now symmetry].
    intros ->. discriminate.
  - intros pollId w. split; reflexivity.
Qed.

Lemma empty_options_dropped_before_validation_witness :
  createPoll (color_form (js "Favorite color?") [js "Red"; js ""])
    (world_of (SignedIn alice) [])
  = (Returned {| error := Some E_options_few |}, world_of (SignedIn alice) []).
Proof.
  refine (proj1 (proj1 (proj2 empty_options_dropped_before_validation)
                   (color_form (js "Favorite color?") [js "Red"; js ""])
                   (js "Favorite color?") (js "Red") colors_id
                   (world_of (SignedIn alice) []) eq_refl _ _ (or_introl eq_refl))).
  - vm_compute. lia.
  - discriminate.
Defined.

(** ** Throwing *)

Lemma returns_ret {A} (a : A) : returns (ret a).
Proof. intros w. now exists a. Qed.

Lemma returns_bind {A B} (m : Action A) (k : A -> Action B) :
  returns m -> (forall a, returns (k a)) -> returns (bind m k).
Proof.
  intros Hm Hk w. unfold bind. destruct (Hm w) as [a Ha].
  destruct (m w) as [c w1]. simpl in Ha. subst c. apply Hk.
Qed.

Lemma returns_roundtrip {A} (t : Table) (v : Verb) (failed : string -> A)
  (run : World -> A * World) : returns (roundtrip t v failed run).
Proof.
  intros w. unfold roundtrip. destruct (next_fault (record (Query t v) w)) as [[msg|] w1].
  - now eexists.
  - destruct (run w1). now eexists.
Qed.

Ltac returns_step :=
  match goal with
  | |- returns (bind _ _) => apply returns_bind; [|intros]
  | |- returns (ret _) => apply returns_ret
  | |- returns (roundtrip _ _ _ _) => apply returns_roundtrip
  | |- returns auth_getUser => intros ?w; now eexists
  | |- returns (revalidatePath _) => intros ?w; now eexists
  | |- returns (match ?x with _ => _ end) => destruct x
  | |- returns (let (_, _) := ?x in _) => destruct x
  end.

(** The four actions that take no form never throw, and neither do the two
    others once the form has been read. *)
Lemma actions_return :
  returns getUserPolls
  /\ (forall id, returns (getPollById id))
  /\ (forall pollId v, returns (submitVote pollId v))
  /\ (forall id, returns (deletePoll id))
  /\ (forall formData question options,
        readPollForm formData = Returned (question, options) ->
        returns (createPoll formData)
        /\ forall pollId, returns (updatePoll pollId formData)).
Proof.
  repeat split; intros.
  - unfold getUserPolls, polls_select_by_user. repeat returns_step.
  - unfold getPollById, polls_select_single. repeat returns_step.
  - unfold submitVote, polls_select_options_single, votes_select_single, votes_insert.
    repeat returns_step.
  - unfold deletePoll, polls_delete. repeat returns_step.
  - unfold createPoll, polls_insert. rewrite H.
    apply returns_bind; [intros w; now eexists|intros [q o]]. repeat returns_step.
  - unfold updatePoll, polls_update. rewrite H.
    apply returns_bind; [intros w; now eexists|intros [q o]]. repeat returns_step.
Qed.

(** A form with no options at all is answered with a validation error. *)
Lemma createPoll_without_options (w : World) :
  createPoll [("question"%string, FormString (js "Favorite color?"))] w
  = (Returned (failure E_options_few), w).
Proof. reflexivity. Qed.

(** C4.  The claim: every action returns its failures in the [error]
    field and throws nothing, also for a form without a question.  That
    holds for [getUserPolls], [getPollById], [submitVote] and [deletePoll],
    and for a form without options ([actions_return],
    [createPoll_without_options]).  But for a form without a question
    [formData.get("question")] is null, [sanitizeInput] calls [trim] on
    it, and [createPoll] and [updatePoll] throw a [TypeError] before the
    validator, whose [!question] test would have caught it, is reached. *)
Theorem missing_question_throws (pollId : JsString) (w : World) :
  get "question" no_question_form = None
  /\ createPoll no_question_form w
     = (Thrown (TypeError "Cannot read properties of null (reading 'trim')"), w)
  /\ updatePoll pollId no_question_form w
     = (Thrown (TypeError "Cannot read properties of null (reading 'trim')"), w).
Proof. repeat split; reflexivity. Qed.

(** ** A poll's life

    Alice creates a poll, reads it back, votes for its second option, finds
    it in her list and deletes it; it is then not found, and its vote is
    gone with it.  Bob's delete, before hers, changes nothing. *)
Example poll_life :
  let id := gen_random_uuid 0 in
  let w1 := snd (createPoll favorite_color (empty_world (SignedIn alice))) in
  let w2 := snd (submitVote id (index 1) w1) in
  let w3 := snd (deletePoll id (set_session (SignedIn bob) w2)) in
  let w4 := snd (deletePoll id (set_session (SignedIn alice) w3)) in
  fst (createPoll favorite_color (empty_world (SignedIn alice))) = Returned success
  /\ regex_test uuidRegex id = true
  /\ List.map poll_question (tbl_polls w1) = [js "Favorite color?"]
  /\ fst (submitVote id (index 1) w1) = Returned success
  /\ List.map vote_option_index (tbl_votes w2) = [1%Z]
  /\ listed (fst (getUserPolls w2)) = [id]
  /\ fst (deletePoll id (set_session (SignedIn bob) w2)) = Returned success
  /\ tbl_polls w3 = tbl_polls w2
  /\ fst (deletePoll id (set_session (SignedIn alice) w3)) = Returned success
  /\ tbl_polls w4 = [] /\ tbl_votes w4 = []
  /\ fst (getPollById id w4) = Returned {| poll := None; poll_error := Some E_single |}.
Proof. vm_compute. repeat split; reflexivity. Qed.

(** * Further properties of the code *)

(** ** The sanitizer and the validator *)

Lemma validateOptions_valid_iff (options : list JsString) :
  isValid (validateOptions options) = true <-> Forall option_ok options.
Proof.
  split.
  - induction options as [|o rest IH]; simpl; [constructor|].
    rewrite falsy_length.
    destruct (Nat.ltb_spec (List.length o) 1) as [Hlo|Hlo]; [discriminate|].
    destruct (Nat.ltb_spec 200 (List.length o)) as [Hhi|Hhi]; [discriminate|].
    intros Hrest. constructor; [unfold option_ok; lia|now apply IH].
  - intros H. now rewrite validateOptions_ok.
Qed.

Lemma validateOptions_reason (options : list JsString) :
  isValid (validateOptions options) = true <-> verror (validateOptions options) = None.
Proof.
  induction options as [|o rest IH]; simpl; [tauto|].
  destruct (falsy o || (List.length o <? 1)); [split; discriminate|].
  destruct (200 <? List.length o); [split; discriminate|exact IH].
Qed.

(** X2.  The validator accepts exactly the inputs whose question
    has 3 to 500 code units, whose options number 2 to 10 and whose every
    option has 1 to 200 code units; and it gives a reason exactly when it
    rejects. *)
Theorem validatePollInput_accepts_iff (question : JsString) (options : list JsString) :
  (isValid (validatePollInput question options) = true
   <-> well_formed_input question options)
  /\ (isValid (validatePollInput question options) = true
      <-> verror (validatePollInput question options) = None).
Proof.
  unfold validatePollInput, well_formed_input. rewrite falsy_short.
  destruct (Nat.ltb_spec (List.length question) 3);
    [split; split; try discriminate; lia|].
  destruct (Nat.ltb_spec 500 (List.length question));
    [split; split; try discriminate; lia|].
  destruct (Nat.ltb_spec (List.length options) 2);
    [split; split; try discriminate; lia|].
  destruct (Nat.ltb_spec 10 (List.length options));
    [split; split; try discriminate; lia|].
  split; [|apply validateOptions_reason].
  rewrite validateOptions_valid_iff. split; [intros Hall; repeat split; try lia; exact Hall|].
  now intros (_ & _ & Hall).
Qed.

(** ** The UUID pattern *)

Lemma regex_test_Forall2 (pattern : list CharClass) (s : JsString) :
  regex_test pattern s = true -> Forall2 (fun cl c => inClass cl c = true) pattern s.
Proof.
  revert s. induction pattern as [|cl pattern IH]; intros [|c s]; simpl;
    try discriminate; [constructor|].
  intros H. apply andb_true_iff in H as [Hc Hs]. constructor; [exact Hc|now apply IH].
Qed.

Lemma inClass_hex_or_hyphen (cl : CharClass) (c : CodeUnit) :
  inClass cl c = true -> hex_or_hyphen c = true.
Proof.
  unfold hex_or_hyphen. destruct cl; simpl; intros H.
  - now rewrite H.
  - rewrite H. apply orb_true_r.
  - unfold between in *. apply andb_true_iff in H as [H1 H2].
    apply N.leb_le in H1, H2.
    assert (E : ((48 <=? c)%N && (c <=? 57)%N) = true).
    { apply andb_true_iff. split; apply N.leb_le; lia. }
    now rewrite E.
  - unfold between in *.
    repeat (apply orb_true_iff in H as [H|H]);
      apply andb_true_iff in H as [H1 H2]; apply N.leb_le in H1, H2.
    + assert (E : ((48 <=? c)%N && (c <=? 57)%N) = true)
        by (apply andb_true_iff; split; apply N.leb_le; lia).
      now rewrite E.
    + assert (E : ((97 <=? c)%N && (c <=? 102)%N) = true)
        by (apply andb_true_iff; split; apply N.leb_le; lia).
      rewrite E. simpl. now rewrite orb_true_r.
    + assert (E : ((65 <=? c)%N && (c <=? 70)%N) = true)
        by (apply andb_true_iff; split; apply N.leb_le; lia).
      rewrite E. simpl. now rewrite !orb_true_r.
Qed.

(** X3.  An id the pattern accepts has exactly thirty-six code units,
    each of them a hexadecimal digit or a hyphen: nothing else reaches the
    store through [getPollById] or [submitVote]. *)
Theorem uuidRegex_shape (id : JsString) :
  regex_test uuidRegex id = true ->
  List.length id = 36 /\ forallb hex_or_hyphen id = true.
Proof.
  intros H. apply regex_test_Forall2 in H. split.
  - apply Forall2_length in H. rewrite <- H. reflexivity.
  - apply forallb_forall. intros c Hc.
    clear -H Hc. induction H as [|cl c' p s Hcl _ IH]; [destruct Hc|].
    destruct Hc as [<-|Hc]; [now apply (inClass_hex_or_hyphen Hcl)|now apply IH].
Qed.

Lemma uuidRegex_shape_witness :
  List.length colors_id = 36 /\ forallb hex_or_hyphen colors_id = true.
Proof. apply uuidRegex_shape. reflexivity. Defined.

(** ** Reasoning on outcomes *)

Lemma only_calls_refl (w : World) : only_calls w w.
Proof. now repeat split. Qed.

Lemma only_calls_trans (a b c : World) : only_calls a b -> only_calls b c -> only_calls a c.
Proof.
  intros (H1 & H2 & H3 & H4 & H5) (K1 & K2 & K3 & K4 & K5).
  repeat split; congruence.
Qed.

Lemma ensures_ret {A} (a : A) (w : World) (Q : Completion A -> World -> Prop) :
  Q (Returned a) w -> ensures (ret a) w Q.
Proof. exact (fun H => H). Qed.

Lemma ensures_lift {A} (c : Completion A) (w : World)
  (Q : Completion A -> World -> Prop) :
  Q c w -> ensures (lift c) w Q.
Proof. exact (fun H => H). Qed.

Lemma ensures_bind {A B} (m : Action A) (k : A -> Action B) (w : World)
  (Q : Completion B -> World -> Prop) :
  ensures m w (fun c w1 => match c with
                           | Returned a => ensures (k a) w1 Q
                           | Thrown e => Q (Thrown e) w1
                           end) ->
  ensures (bind m k) w Q.
Proof.
  unfold ensures, bind. destruct (m w) as [[a|e] w1]; simpl; exact (fun H => H).
Qed.

Lemma ensures_auth (w : World) (Q : Completion (option Uuid * option string) -> World -> Prop) :
  (forall e w1, only_calls w w1 -> log w1 = log w ++ [AuthGetUser] ->
                faults w1 = faults w ->
                (caller (session w) = None \/ e = None) ->
                Q (Returned (caller (session w), e)) w1) ->
  ensures auth_getUser w Q.
Proof.
  intros H. unfold ensures, auth_getUser. simpl.
  destruct (session w) eqn:Hs; simpl; apply H;
    try (now repeat split); auto.
Qed.

(** A query either fails, with whatever message the store gives and no
    effect, or runs on a world that no call has written to. *)
Lemma ensures_roundtrip {A} (t : Table) (v : Verb) (failed : string -> A)
  (run : World -> A * World) (w : World) (Q : Completion A -> World -> Prop) :
  (forall w1, only_calls w w1 ->
              (forall msg, Q (Returned (failed msg)) w1)
              /\ Q (Returned (fst (run w1))) (snd (run w1))) ->
  ensures (roundtrip t v failed run) w Q.
Proof.
  intros H. unfold ensures, roundtrip, next_fault. simpl.
  destruct (faults w) as [|[msg|] fs]; simpl.
  - destruct (H (record (Query t v) w)) as [_ Hrun]; [now repeat split|].
    now destruct (run (record (Query t v) w)).
  - apply (H (set_faults fs (record (Query t v) w))). now repeat split.
  - destruct (H (set_faults fs (record (Query t v) w))) as [_ Hrun];
      [now repeat split|].
    now destruct (run (set_faults fs (record (Query t v) w))).
Qed.



(** ** Reads write nothing *)

(** X4.  [getPollById] and [getUserPolls] never write: whatever the
    id, the session and the answers of the store, both tables and the
    session are what they were. *)
Theorem reads_write_nothing (w : World) :
  only_calls w (snd (getUserPolls w))
  /\ forall id, only_calls w (snd (getPollById id w)).
Proof.
  split.
  - change (ensures getUserPolls w (fun _ w' => only_calls w w')).
    unfold getUserPolls, polls_select_by_user.
    apply ensures_bind, ensures_auth. intros e w1 H1 _ _ _.
    destruct (caller (session w)).
    + apply ensures_bind, ensures_roundtrip. intros w2 H2.
      pose proof (only_calls_trans H1 H2) as H12. split; [intros msg; exact H12|].
      exact H12.
    + exact H1.
  - intros id. change (ensures (getPollById id) w (fun _ w' => only_calls w w')).
    unfold getPollById, polls_select_single.
    destruct (regex_test uuidRegex id); simpl; [|apply only_calls_refl].
    apply ensures_bind, ensures_roundtrip. intros w1 H1. split.
    + intros msg. exact H1.
    + simpl. destruct (single (filter (has_id id) (tbl_polls w1))) as [d [m|]]; exact H1.
Qed.

(** ** Every vote written is a valid one *)




(** ** What the writes keep *)

Lemma sanitizeInput_clean (s : JsString) : clean (sanitizeInput s).
Proof. apply Forall_forall. intros c. apply sanitizeInput_strips_angles. Qed.

Lemma readPollForm_clean (formData : FormData) (question : JsString)
  (options : list JsString) :
  readPollForm formData = Returned (question, options) ->
  clean question /\ Forall clean options.
Proof.
  unfold readPollForm.
  destruct (get "question" formData) as [[s|f]|]; simpl; try discriminate.
  destruct (map_sanitizeInput (filter truthy (getAll "options" formData)))
    as [ss|e] eqn:Hmap; [|discriminate].
  intros H. injection H as <- <-. split; [apply sanitizeInput_clean|].
  apply Forall_forall. intros o Ho.
  destruct (map_sanitizeInput_In Hmap Ho) as (raw & _ & ->).
  apply sanitizeInput_clean.
Qed.

(** X9.  The three actions that write to [polls] keep the table
    well-formed: if every stored poll passes the validator and holds no
    angle bracket, the same is true after [createPoll], [updatePoll] or
    [deletePoll], whatever the form, the id, the session and the answers of
    the store. *)
Theorem writes_keep_polls_well_formed (w : World) :
  Forall poll_well_formed (tbl_polls w) ->
  (forall formData,
     Forall poll_well_formed (tbl_polls (snd (createPoll formData w))))
  /\ (forall pollId formData,
     Forall poll_well_formed (tbl_polls (snd (updatePoll pollId formData w))))
  /\ (forall id, Forall poll_well_formed (tbl_polls (snd (deletePoll id w)))).
Proof.
  intros Hwf.
  assert (Hkeep : forall w', only_calls w w' -> Forall poll_well_formed (tbl_polls w')).
  { intros w' (Hp & _). now rewrite Hp. }
  split; [|split].
  - intros formData.
    change (ensures (createPoll formData) w
              (fun _ w' => Forall poll_well_formed (tbl_polls w'))).
    unfold createPoll. apply ensures_bind, ensures_lift.
    destruct (readPollForm formData) as [[question options]|e] eqn:Hread; [|exact Hwf].
    cbv beta iota zeta.
    destruct (isValid (validatePollInput question options)) eqn:Hvalid;
      cbv beta iota delta [negb]; [|exact Hwf].
    destruct (readPollForm_clean Hread) as [Hq Ho].
    apply ensures_bind, ensures_auth. intros e w1 H1 _ _ _.
    destruct e; [now apply Hkeep|].
    destruct (caller (session w)) as [uid|]; [|now apply Hkeep].
    unfold polls_insert. apply ensures_bind, ensures_roundtrip. intros w2 H2.
    pose proof (only_calls_trans H1 H2) as H12. split.
    + intros msg. now apply Hkeep.
    + unfold ensures, bind, revalidatePath. simpl.
      apply Forall_app. split; [now apply Hkeep|].
      constructor; [|constructor]. now repeat split.
  - intros pollId formData.
    change (ensures (updatePoll pollId formData) w
              (fun _ w' => Forall poll_well_formed (tbl_polls w'))).
    unfold updatePoll. apply ensures_bind, ensures_lift.
    destruct (readPollForm formData) as [[question options]|e] eqn:Hread; [|exact Hwf].
    cbv beta iota zeta.
    destruct (isValid (validatePollInput question options)) eqn:Hvalid;
      cbv beta iota delta [negb]; [|exact Hwf].
    destruct (readPollForm_clean Hread) as [Hq Ho].
    apply ensures_bind, ensures_auth. intros e w1 H1 _ _ _.
    destruct e; [now apply Hkeep|].
    destruct (caller (session w)) as [uid|]; [|now apply Hkeep].
    unfold polls_update. apply ensures_bind, ensures_roundtrip. intros w2 H2.
    pose proof (only_calls_trans H1 H2) as H12. split.
    + intros msg. now apply Hkeep.
    + unfold ensures. simpl. apply Forall_forall. intros r Hr.
      apply in_map_iff in Hr as (r0 & <- & Hr0).
      destruct (scoped pollId uid r0).
      * now repeat split.
      * apply (proj1 (Forall_forall _ _) (Hkeep w2 H12)). exact Hr0.
  - intros id.
    change (ensures (deletePoll id) w
              (fun _ w' => Forall poll_well_formed (tbl_polls w'))).
    unfold deletePoll. apply ensures_bind, ensures_auth. intros e w1 H1 _ _ _.
    destruct e; [now apply Hkeep|].
    destruct (caller (session w)) as [uid|]; [|now apply Hkeep].
    unfold polls_delete. apply ensures_bind, ensures_roundtrip. intros w2 H2.
    pose proof (only_calls_trans H1 H2) as H12. split.
    + intros msg. now apply Hkeep.
    + unfold ensures, bind, revalidatePath. simpl.
      apply Forall_filter. now apply Hkeep.
Qed.

Lemma writes_keep_polls_well_formed_witness :
  Forall poll_well_formed
    (tbl_polls (snd (createPoll favorite_color (world_of (SignedIn bob) [])))).
Proof.
  assert (H : Forall poll_well_formed (tbl_polls (world_of (SignedIn bob) []))).
  { constructor; [|constructor]. split; [reflexivity|].
    split; repeat constructor; discriminate. }
  exact (proj1 (writes_keep_polls_well_formed H) favorite_color).
Defined.

(** ** Without a user *)

(** X10.  With no signed-in user -- an anonymous session or a failed
    lookup -- the four owner-only actions stop after the session lookup:
    no query reaches the store, the world is otherwise untouched, and the
    call reports an error.  [getUserPolls] and [deletePoll] replace the
    message of a failed lookup by their own; [createPoll] and [updatePoll]
    pass it on, once the form has been accepted. *)
Theorem owner_actions_need_a_user (w : World) :
  caller (session w) = None ->
  getUserPolls w
    = (Returned {| polls := []; polls_error := Some "Not authenticated"%string |},
       record AuthGetUser w)
  /\ (forall id,
        deletePoll id w
        = (Returned (failure match session w with
                             | AuthFailure _ => "Authentication error"
                             | _ => "You must be logged in to delete a poll."
                             end),
           record AuthGetUser w))
  /\ (forall pollId formData,
        accepted formData ->
        createPoll formData w
        = (Returned (failure match session w with
                             | AuthFailure msg => msg
                             | _ => "You must be logged in to create a poll."
                             end),
           record AuthGetUser w)
        /\ updatePoll pollId formData w
           = (Returned (failure match session w with
                                | AuthFailure msg => msg
                                | _ => "You must be logged in to update a poll."
                                end),
              record AuthGetUser w)).
Proof.
  intros Hnobody.
  destruct (session w) as [uid| |msg] eqn:Hs; [discriminate| |];
    (split; [unfold getUserPolls; run_action; cbn; now rewrite Hs|]);
    (split; [intros id; unfold deletePoll; run_action; cbn; now rewrite Hs|]);
    intros pollId formData (question & options & Hread & Hvalid);
    unfold createPoll, updatePoll; run_action;
    rewrite Hread, Hvalid; cbn; rewrite Hs; split; reflexivity.
Qed.

Lemma owner_actions_need_a_user_witness :
  getUserPolls (world_of (AuthFailure "fetch failed") [])
  = (Returned {| polls := []; polls_error := Some "Not authenticated"%string |},
     record AuthGetUser (world_of (AuthFailure "fetch failed") [])).
Proof.
  exact (proj1 (@owner_actions_need_a_user (world_of (AuthFailure "fetch failed") [])
                  eq_refl)).
Defined.

(** ** Creating a poll and reading it back *)

Lemma regex_test_app (p1 p2 : list CharClass) (s1 s2 : JsString) :
  regex_test p1 s1 = true -> regex_test p2 s2 = true ->
  regex_test (p1 ++ p2) (s1 ++ s2) = true.
Proof.
  revert s1. induction p1 as [|cl p1 IH]; intros [|c s1]; simpl; try discriminate.
  - auto.
  - intros H1 H2. apply andb_true_iff in H1 as [Hc H1].
    rewrite Hc. simpl. now apply IH.
Qed.

Lemma hexDigit_hex (n : nat) : inClass HexDigit (hexDigit n) = true.
Proof.
  unfold hexDigit, inClass, between.
  pose proof (Nat.mod_upper_bound n 16) as Hlt.
  assert (Hd : (N.of_nat (n mod 16) < 16)%N) by lia.
  destruct (N.ltb_spec (N.of_nat (n mod 16)) 10).
  - assert (E : ((48 <=? 48 + N.of_nat (n mod 16))%N
                 && (48 + N.of_nat (n mod 16) <=? 57)%N) = true)
      by (apply andb_true_iff; split; apply N.leb_le; lia).
    now rewrite E.
  - assert (E : ((97 <=? 87 + N.of_nat (n mod 16))%N
                 && (87 + N.of_nat (n mod 16) <=? 102)%N) = true)
      by (apply andb_true_iff; split; apply N.leb_le; lia).
    rewrite E. now rewrite orb_true_r.
Qed.

Lemma hexFixed_hex (width n : nat) :
  regex_test (repeat HexDigit width) (hexFixed width n) = true.
Proof.
  revert n. induction width as [|width IH]; intros n; [reflexivity|].
  change (repeat HexDigit (S width)) with (HexDigit :: repeat HexDigit width).
  rewrite repeat_cons. simpl hexFixed. apply regex_test_app; [apply IH|].
  cbn [regex_test]. now rewrite hexDigit_hex.
Qed.

(** The ids the store hands out match the pattern the actions ask for. *)
Lemma gen_random_uuid_shape (n : nat) : regex_test uuidRegex (gen_random_uuid n) = true.
Proof.
  unfold gen_random_uuid.
  change uuidRegex with
    ((repeat HexDigit 8 ++ [Hyphen] ++ repeat HexDigit 4 ++ [Hyphen]
      ++ [Version] ++ repeat HexDigit 3 ++ [Hyphen]
      ++ [Variant] ++ repeat HexDigit 3 ++ [Hyphen]) ++ repeat HexDigit 12).
  apply regex_test_app; [reflexivity|apply hexFixed_hex].
Qed.

(** What [createPoll] stores for a signed-in user and an accepted form. *)
Lemma createPoll_stores (formData : FormData) (question : JsString)
  (options : list JsString) (u : Uuid) (w : World) :
  session w = SignedIn u -> faults w = [] ->
  readPollForm formData = Returned (question, options) ->
  isValid (validatePollInput question options) = true ->
  createPoll formData w
  = (Returned success,
     record (RevalidatePath "/polls")
       (set_tables
          (tbl_polls w ++ [{| poll_id := gen_random_uuid (next_uuid w);
                              poll_user_id := Some u;
                              poll_question := question;
                              poll_options := options;
                              poll_created_at := clock w;
                              poll_updated_at := clock w |}])
          (tbl_votes w) 1
          (record (Query Polls Insert) (record AuthGetUser w)))).
Proof.
  intros Hs Hf Hread Hvalid. unfold createPoll, polls_insert. run_action.
  rewrite Hread, Hvalid. cbn. rewrite Hs. cbn. rewrite Hf. reflexivity.
Qed.

(** X11.  A signed-in user submits a form whose question and options
    are strings and which passes validation, and the store answers: the
    call succeeds and appends one poll, owned by the caller, holding the
    sanitized question and the sanitized non-empty options in their order;
    the votes are untouched, and the calls made are the session lookup, one
    insert and the revalidation of [/polls]. *)
Theorem createPoll_stores_sanitized_poll (formData : FormData) (rawq : JsString)
  (raws : list JsString) (u : Uuid) (w : World) :
  session w = SignedIn u -> faults w = [] ->
  get "question" formData = Some (FormString rawq) ->
  getAll "options" formData = List.map FormString raws ->
  isValid (validatePollInput (sanitizeInput rawq)
             (List.map sanitizeInput (filter (fun s => negb (falsy s)) raws))) = true ->
  fst (createPoll formData w) = Returned {| error := None |}
  /\ (exists row,
        tbl_polls (snd (createPoll formData w)) = tbl_polls w ++ [row]
        /\ poll_user_id row = Some u
        /\ poll_question row = sanitizeInput rawq
        /\ poll_options row
           = List.map sanitizeInput (filter (fun s => negb (falsy s)) raws))
  /\ tbl_votes (snd (createPoll formData w)) = tbl_votes w
  /\ log (snd (createPoll formData w))
     = log w ++ [AuthGetUser; Query Polls Insert; RevalidatePath "/polls"].
Proof.
  intros Hs Hf Hq Ho Hvalid.
  rewrite (createPoll_stores Hs Hf (readPollForm_options Hq Ho) Hvalid). simpl.
  split; [reflexivity|]. split; [|split; [reflexivity|]].
  - eexists. repeat split.
  - now rewrite <- !app_assoc.
Qed.

Lemma createPoll_stores_sanitized_poll_witness :
  fst (createPoll (color_form (js " <b>Favorite</b> color? ") [js "Red"; js ""; js " Blue"])
         (world_of (SignedIn bob) []))
  = Returned {| error := None |}.
Proof.
  refine (proj1 (@createPoll_stores_sanitized_poll
                   (color_form (js " <b>Favorite</b> color? ") [js "Red"; js ""; js " Blue"])
                   (js " <b>Favorite</b> color? ") [js "Red"; js ""; js " Blue"]
                   bob (world_of (SignedIn bob) []) eq_refl eq_refl eq_refl eq_refl _)).
  reflexivity.
Defined.

(** X12.  A poll just created is read back by its id: when the id
    the store gave it is not already taken, [getPollById] on that id, run
    after a successful [createPoll], returns the new poll and no error. *)
Theorem created_poll_is_read_back (formData : FormData) (question : JsString)
  (options : list JsString) (u : Uuid) (w : World) :
  session w = SignedIn u -> faults w = [] ->
  readPollForm formData = Returned (question, options) ->
  isValid (validatePollInput question options) = true ->
  (forall r, In r (tbl_polls w) -> poll_id r <> gen_random_uuid (next_uuid w)) ->
  exists row,
    fst (getPollById (gen_random_uuid (next_uuid w)) (snd (createPoll formData w)))
    = Returned {| poll := Some row; poll_error := None |}
    /\ poll_id row = gen_random_uuid (next_uuid w)
    /\ poll_user_id row = Some u
    /\ poll_question row = question /\ poll_options row = options.
Proof.
  intros Hs Hf Hread Hvalid Hfresh.
  rewrite (createPoll_stores Hs Hf Hread Hvalid). cbn [snd].
  set (row := {| poll_id := gen_random_uuid (next_uuid w);
                 poll_user_id := Some u;
                 poll_question := question;
                 poll_options := options;
                 poll_created_at := clock w;
                 poll_updated_at := clock w |}).
  exists row. split; [|now repeat split].
  apply getPollById_found; [apply gen_random_uuid_shape|exact Hf|].
  cbn [tbl_polls record set_tables]. rewrite filter_app.
  cbn [filter].
  rewrite (proj2 (has_id_true (gen_random_uuid (next_uuid w)) row) eq_refl).
  rewrite filter_none; [reflexivity|].
  intros r Hr. destruct (has_id (gen_random_uuid (next_uuid w)) r) eqn:E; [|reflexivity].
  apply has_id_true in E. now elim (Hfresh r Hr).
Qed.

Lemma created_poll_is_read_back_witness :
  exists row,
    fst (getPollById (gen_random_uuid 1)
           (snd (createPoll favorite_color (world_of (SignedIn bob) []))))
    = Returned {| poll := Some row; poll_error := None |}
    /\ poll_id row = gen_random_uuid 1
    /\ poll_user_id row = Some bob
    /\ poll_question row = js "Favorite color?"
    /\ poll_options row = [js "Red"; js "Blue"].
Proof.
  apply (@created_poll_is_read_back favorite_color (js "Favorite color?")
           [js "Red"; js "Blue"] bob (world_of (SignedIn bob) [])
           eq_refl eq_refl eq_refl eq_refl).
  intros r [<-|[]]. vm_compute. discriminate.
Defined.

(** ** Listing one's polls *)

Lemma insert_desc_perm (r : PollRow) (rows : list PollRow) :
  Permutation (insert_desc r rows) (r :: rows).
Proof.
  induction rows as [|x rest IH]; simpl; [reflexivity|].
  destruct (poll_created_at x <? poll_created_at r); [reflexivity|].
  rewrite IH. apply perm_swap.
Qed.

Lemma order_created_desc_perm (rows : list PollRow) :
  Permutation (order_created_desc rows) rows.
Proof.
  induction rows as [|r rest IH]; simpl; [reflexivity|].
  rewrite insert_desc_perm. now constructor.
Qed.

Lemma insert_desc_sorted (r : PollRow) (rows : list PollRow) :
  newest_first rows -> newest_first (insert_desc r rows).
Proof.
  unfold newest_first. induction 1 as [|x rest Hrest IH Hx]; simpl.
  - constructor; constructor.
  - destruct (Nat.ltb_spec (poll_created_at x) (poll_created_at r)) as [Hlt|Hge].
    + constructor; [now constructor|]. constructor; [lia|].
      apply Forall_forall. intros y Hy.
      pose proof (proj1 (Forall_forall _ _) Hx y Hy). simpl in *. lia.
    + constructor; [exact IH|].
      apply Forall_forall. intros y Hy.
      apply (Permutation_in _ (insert_desc_perm r rest)) in Hy.
      destruct Hy as [<-|Hy]; [exact Hge|].
      exact (proj1 (Forall_forall _ _) Hx y Hy).
Qed.

Lemma order_created_desc_sorted (rows : list PollRow) :
  newest_first (order_created_desc rows).
Proof.
  induction rows as [|r rest IH]; simpl; [constructor|].
  now apply insert_desc_sorted.
Qed.

(** X13.  For a signed-in user and a store that answers, [getUserPolls]
    returns, with no error, exactly the stored polls whose owner is the
    caller -- each as often as it is stored, none of anyone else's -- and
    returns them newest first. *)
Theorem getUserPolls_lists_own_polls (u : Uuid) (w : World) :
  session w = SignedIn u -> faults w = [] ->
  exists rows,
    fst (getUserPolls w) = Returned {| polls := rows; polls_error := None |}
    /\ Permutation rows (filter (poll_of u) (tbl_polls w))
    /\ (forall r, In r rows <-> In r (tbl_polls w) /\ poll_user_id r = Some u)
    /\ newest_first rows.
Proof.
  intros Hs Hf.
  exists (order_created_desc (filter (poll_of u) (tbl_polls w))).
  split; [|split; [apply order_created_desc_perm|split;
                   [|apply order_created_desc_sorted]]].
  - unfold getUserPolls, polls_select_by_user. run_action. cbn.
    rewrite Hs. cbn. rewrite Hf. reflexivity.
  - intros r. split.
    + intros Hr. apply (Permutation_in _ (order_created_desc_perm _)) in Hr.
      apply filter_In in Hr as [Hin Ho]. split; [exact Hin|].
      now apply owned_by_true.
    + intros [Hin Ho].
      apply (Permutation_in _ (Permutation_sym (order_created_desc_perm _))).
      apply filter_In. split; [exact Hin|]. now apply owned_by_true.
Qed.

Lemma getUserPolls_lists_own_polls_witness :
  exists rows,
    fst (getUserPolls (world_of (SignedIn alice) []))
    = Returned {| polls := rows; polls_error := None |}
    /\ Permutation rows (filter (poll_of alice) [colors])
    /\ (forall r, In r rows <-> In r [colors] /\ poll_user_id r = Some alice)
    /\ newest_first rows.
Proof.
  exact (@getUserPolls_lists_own_polls alice (world_of (SignedIn alice) [])
           eq_refl eq_refl).
Defined.

(** ** The owner's delete and update *)

(** X14.  The owner deletes a poll and the store answers: the call
    succeeds; the polls left are exactly those that are not the caller's
    poll of that id; the votes left are exactly those of other polls (the
    poll's votes go with it, whoever cast them); and when that id named
    only the caller's poll, a later [getPollById] finds nothing. *)
Theorem owner_delete_removes_poll_and_votes (u id : Uuid) (p : PollRow) (w : World) :
  session w = SignedIn u -> faults w = [] ->
  In p (tbl_polls w) -> poll_id p = id -> poll_user_id p = Some u ->
  fst (deletePoll id w) = Returned {| error := None |}
  /\ (forall r, In r (tbl_polls (snd (deletePoll id w)))
                <-> In r (tbl_polls w)
                    /\ ~ (poll_id r = id /\ poll_user_id r = Some u))
  /\ (forall v, In v (tbl_votes (snd (deletePoll id w)))
                <-> In v (tbl_votes w) /\ vote_poll_id v <> id)
  /\ log (snd (deletePoll id w))
     = log w ++ [AuthGetUser; Query Polls Delete; RevalidatePath "/polls"]
  /\ (regex_test uuidRegex id = true ->
      (forall r, In r (tbl_polls w) -> poll_id r = id -> poll_user_id r = Some u) ->
      fst (getPollById id (snd (deletePoll id w)))
      = Returned {| poll := None; poll_error := Some E_single |}).
Proof.
  intros Hs Hf Hp Hid Ho.
  assert (Hscoped : forall r, scoped id u r = true
                              <-> poll_id r = id /\ poll_user_id r = Some u).
  { intros r. unfold scoped, poll_of. rewrite andb_true_iff, has_id_true, owned_by_true.
    reflexivity. }
  assert (Hrun : deletePoll id w
          = (Returned success,
             record (RevalidatePath "/polls")
               (set_tables
                  (filter (fun r => negb (scoped id u r)) (tbl_polls w))
                  (filter (fun v => negb (existsb (has_id (vote_poll_id v))
                                            (filter (scoped id u) (tbl_polls w))))
                     (tbl_votes w))
                  0 (record (Query Polls Delete) (record AuthGetUser w))))).
  { unfold deletePoll, polls_delete. run_action. cbn. rewrite Hs. cbn.
    rewrite Hf. reflexivity. }
  rewrite Hrun. cbn [fst snd tbl_polls tbl_votes log record set_tables].
  split; [reflexivity|]. split; [|split; [|split]].
  - intros r. rewrite filter_In, negb_true_iff. split.
    + intros [Hin Hn]. split; [exact Hin|]. intros H. apply Hscoped in H. congruence.
    + intros [Hin Hn]. split; [exact Hin|].
      destruct (scoped id u r) eqn:E; [|reflexivity]. apply Hscoped in E. tauto.
  - intros v. rewrite filter_In, negb_true_iff. split.
    + intros [Hin Hn]. split; [exact Hin|]. intros Hv.
      assert (E : existsb (has_id (vote_poll_id v)) (filter (scoped id u) (tbl_polls w))
                  = true).
      { apply existsb_exists. exists p. split.
        - apply filter_In. split; [exact Hp|]. now apply Hscoped.
        - apply has_id_true. congruence. }
      congruence.
    + intros [Hin Hn]. split; [exact Hin|].
      destruct (existsb _ _) eqn:E; [|reflexivity].
      apply existsb_exists in E as (r & Hr & Hrid).
      apply filter_In in Hr as [_ Hr]. apply Hscoped in Hr as [Hr _].
      apply has_id_true in Hrid. congruence.
  - now rewrite <- !app_assoc.
  - intros Hshape Honly.
    unfold getPollById, polls_select_single. rewrite Hshape. run_action. cbn.
    rewrite Hf. cbn.
    rewrite (@filter_none _ (has_id id)); [reflexivity|].
    intros r Hr. apply filter_In in Hr as [Hin Hn]. apply negb_true_iff in Hn.
    destruct (has_id id r) eqn:E; [|reflexivity]. apply has_id_true in E.
    assert (scoped id u r = true) by (apply Hscoped; auto). congruence.
Qed.

Lemma owner_delete_removes_poll_and_votes_witness :
  fst (deletePoll colors_id (world_of (SignedIn alice) [vote_of 1 (Some bob) 0]))
  = Returned {| error := None |}.
Proof.
  exact (proj1 (@owner_delete_removes_poll_and_votes alice colors_id colors
                  (world_of (SignedIn alice) [vote_of 1 (Some bob) 0])
                  eq_refl eq_refl (or_introl eq_refl) eq_refl eq_refl)).
Defined.



(** ** When the store fails *)

(** X16.  When the store fails the first query of a call, a signed-in
    caller gets the store's message from [createPoll], [updatePoll],
    [deletePoll], [getUserPolls] and [getPollById], and nothing is written
    or revalidated; [submitVote] hides the message behind "Poll not found". *)
Theorem store_failure_is_reported (u : Uuid) (msg : string) (fs : list (option string))
  (w : World) :
  session w = SignedIn u -> faults w = Some msg :: fs ->
  (forall pollId formData, accepted formData ->
     fst (createPoll formData w) = Returned (failure msg)
     /\ same_tables w (snd (createPoll formData w))
     /\ fst (updatePoll pollId formData w) = Returned (failure msg)
     /\ same_tables w (snd (updatePoll pollId formData w)))
  /\ (forall id,
     fst (deletePoll id w) = Returned (failure msg)
     /\ same_tables w (snd (deletePoll id w))
     /\ log (snd (deletePoll id w)) = log w ++ [AuthGetUser; Query Polls Delete])
  /\ fst (getUserPolls w) = Returned {| polls := []; polls_error := Some msg |}
  /\ (forall id, regex_test uuidRegex id = true ->
     fst (getPollById id w) = Returned {| poll := None; poll_error := Some msg |})
  /\ (forall pollId v, regex_test uuidRegex pollId = true -> ~ outside_0_9 v ->
     fst (submitVote pollId v w) = Returned (failure "Poll not found")
     /\ same_tables w (snd (submitVote pollId v w))).
Proof.
  intros Hs Hf. split; [|split; [|split; [|split]]].
  - intros pollId formData (question & options & Hread & Hvalid).
    unfold createPoll, updatePoll, polls_insert, polls_update. run_action.
    rewrite Hread, Hvalid. cbn. rewrite Hs. cbn. rewrite Hf. cbn.
    now repeat split.
  - intros id. unfold deletePoll, polls_delete. run_action. cbn.
    rewrite Hs. cbn. rewrite Hf. cbn. repeat split. now rewrite <- app_assoc.
  - unfold getUserPolls, polls_select_by_user. run_action. cbn.
    rewrite Hs. cbn. rewrite Hf. reflexivity.
  - intros id Hid. unfold getPollById, polls_select_single. rewrite Hid.
    run_action. cbn. rewrite Hf. reflexivity.
  - intros pollId v Hid Hv. apply index_accepted in Hv.
    unfold submitVote, polls_select_options_single. rewrite Hid, Hv.
    run_action. cbn. rewrite Hs. cbn. rewrite Hf. cbn. now repeat split.
Qed.

Lemma store_failure_is_reported_witness :
  fst (deletePoll colors_id
         (set_faults [Some "connection reset"%string] (world_of (SignedIn alice) [])))
  = Returned (failure "connection reset").
Proof.
  exact (proj1 (proj1 (proj2 (@store_failure_is_reported alice "connection reset" []
           (set_faults [Some "connection reset"%string] (world_of (SignedIn alice) []))
           eq_refl eq_refl)) colors_id)).
Defined.



(** ** The option list of the forms *)

Lemma map_index_length {A B} (f : A -> nat -> B) (i : nat) (xs : list A) :
  List.length (map_index f i xs) = List.length xs.
Proof. revert i. induction xs as [|x xs IH]; intros i; simpl; [reflexivity|now rewrite IH]. Qed.

Lemma map_index_nth {A B} (f : A -> nat -> B) (i k : nat) (xs : list A) :
  nth_error (map_index f i xs) k = option_map (fun x => f x (i + k)) (nth_error xs k).
Proof.
  revert i k. induction xs as [|x xs IH]; intros i [|k]; simpl; try reflexivity.
  - now rewrite Nat.add_0_r.
  - rewrite IH. now rewrite Nat.add_succ_r.
Qed.

Lemma filter_index_past {A} (idx i : nat) (xs : list A) :
  idx < i -> filter_index (fun _ k => negb (k =? idx)) i xs = xs.
Proof.
  revert i. induction xs as [|x xs IH]; intros i Hlt; simpl; [reflexivity|].
  destruct (Nat.eqb_spec i idx); [lia|]. simpl. f_equal. apply IH. lia.
Qed.

Lemma filter_index_drop {A} (idx i : nat) (xs : list A) :
  i <= idx ->
  filter_index (fun _ k => negb (k =? idx)) i xs
  = firstn (idx - i) xs ++ skipn (S (idx - i)) xs.
Proof.
  revert i. induction xs as [|x xs IH]; intros i Hle; simpl.
  - now destruct (idx - i).
  - destruct (Nat.eqb_spec i idx) as [->|Hne]; simpl.
    + rewrite Nat.sub_diag. simpl. apply filter_index_past. lia.
    + destruct (idx - i) as [|d] eqn:Hd; [lia|]. simpl. f_equal.
      rewrite IH by lia. replace (idx - S i) with d by lia. reflexivity.
Qed.

(** X17.  What the three handlers of the option list do: typing in
    field [idx] changes that option and no other and keeps the number of
    options; adding appends one empty option; removing deletes exactly the
    option at [idx] when there are more than two, and does nothing when
    there are two or fewer. *)
Theorem option_handlers (opts : list JsString) (idx : nat) (value : JsString) :
  (List.length (handleOptionChange idx value opts) = List.length opts
   /\ forall k, nth_error (handleOptionChange idx value opts) k
                = option_map (fun o => if k =? idx then value else o) (nth_error opts k))
  /\ addOption opts = opts ++ [[]]
  /\ (2 < List.length opts ->
      removeOption idx opts opts = firstn idx opts ++ skipn (S idx) opts)
  /\ (List.length opts <= 2 -> removeOption idx opts opts = opts).
Proof.
  split; [split|split; [reflexivity|split]].
  - apply map_index_length.
  - intros k. unfold handleOptionChange. now rewrite map_index_nth.
  - intros H. unfold removeOption.
    destruct (Nat.ltb_spec 2 (List.length opts)); [|lia].
    rewrite filter_index_drop by lia. now rewrite Nat.sub_0_r.
  - intros H. unfold removeOption.
    destruct (Nat.ltb_spec 2 (List.length opts)); [lia|reflexivity].
Qed.

Lemma option_handlers_witness :
  removeOption 1 [js "Red"; js "Blue"; js "Green"] [js "Red"; js "Blue"; js "Green"]
  = [js "Red"; js "Green"].
Proof.
  refine (proj1 (proj2 (proj2 (@option_handlers [js "Red"; js "Blue"; js "Green"]
                                 1 (js ""))))  _).
  simpl. lia.
Defined.

Lemma handle_keeps_two (opts : list JsString) (e : OptionEvent) :
  2 <= List.length opts -> 2 <= List.length (handle opts e).
Proof.
  intros H. destruct e as [idx value| |idx]; simpl.
  - unfold handleOptionChange. now rewrite map_index_length.
  - unfold addOption. rewrite length_app. simpl. lia.
  - unfold removeOption.
    destruct (Nat.ltb_spec 2 (List.length opts)) as [Hlt|Hge]; [|exact H].
    rewrite filter_index_drop by lia. rewrite Nat.sub_0_r.
    rewrite length_app, length_firstn, length_skipn. lia.
Qed.

(** X18.  However the user types, adds and removes, a form that shows at
    least two options keeps showing at least two: each handler runs on the
    list as rendered. *)
Theorem option_list_keeps_two (events : list OptionEvent) (opts : list JsString) :
  2 <= List.length opts ->
  2 <= List.length (fold_left handle events opts).
Proof.
  revert opts. induction events as [|e events IH]; intros opts H; simpl; [exact H|].
  apply IH. now apply handle_keeps_two.
Qed.

Lemma option_list_keeps_two_witness :
  2 <= List.length (fold_left handle [Added; Removed 0; Removed 0; Removed 5; Typed 1 (js "x")]
                      [[]; []]).
Proof. apply option_list_keeps_two. simpl. lia. Defined.

(** ** The form [EditPollForm] submits *)

Lemma getAll_delete_same (name : string) (formData : FormData) :
  getAll name (formData_delete name formData) = [].
Proof.
  unfold getAll, formData_delete.
  induction formData as [|e rest IH]; simpl; [reflexivity|].
  destruct (String.eqb (fst e) name) eqn:E; simpl; [exact IH|].
  now rewrite E.
Qed.

Lemma getAll_delete_other (name other : string) (formData : FormData) :
  name <> other ->
  getAll name (formData_delete other formData) = getAll name formData.
Proof.
  intros Hne. unfold getAll, formData_delete.
  induction formData as [|e rest IH]; simpl; [reflexivity|].
  destruct (String.eqb_spec (fst e) other) as [Ho|Ho]; simpl.
  - destruct (String.eqb_spec (fst e) name) as [Hn|Hn]; [congruence|exact IH].
  - destruct (String.eqb (fst e) name); simpl; now rewrite IH.
Qed.

Lemma getAll_set_same (name : string) (v : FormDataEntryValue) (formData : FormData) :
  getAll name (formData_set name v formData) = [v].
Proof.
  induction formData as [|e rest IH]; simpl.
  - unfold getAll. simpl. now rewrite String.eqb_refl.
  - destruct (String.eqb (fst e) name) eqn:E.
    + unfold getAll. simpl. rewrite String.eqb_refl. simpl.
      f_equal. apply getAll_delete_same.
    + unfold getAll in *. simpl. rewrite E. exact IH.
Qed.

Lemma getAll_append_fold (name : string) (options : list JsString) (formData : FormData) :
  getAll name (fold_left (fun fd opt => formData_append name (FormString opt) fd)
                 options formData)
  = getAll name formData ++ List.map FormString options.
Proof.
  revert formData. induction options as [|o rest IH]; intros formData; simpl.
  - now rewrite app_nil_r.
  - rewrite IH. unfold formData_append, getAll. rewrite filter_app, map_app. simpl.
    rewrite String.eqb_refl. simpl. now rewrite <- app_assoc.
Qed.

Lemma getAll_append_fold_other (name other : string) (options : list JsString)
  (formData : FormData) :
  name <> other ->
  getAll name (fold_left (fun fd opt => formData_append other (FormString opt) fd)
                 options formData)
  = getAll name formData.
Proof.
  intros Hne. revert formData. induction options as [|o rest IH]; intros formData; simpl;
    [reflexivity|].
  rewrite IH. unfold formData_append, getAll. rewrite filter_app, map_app. simpl.
  destruct (String.eqb_spec other name); [congruence|]. simpl. apply app_nil_r.
Qed.

(** X19.  Whatever the browser put in the form, the form
    [EditPollForm] sends holds exactly one question, the edited one, and
    exactly the edited options, all of them strings; [updatePoll] reads it
    as the sanitized question and the sanitized non-empty options, and so
    returns a result: called from this form it never throws. *)
Theorem EditPollForm_submits_text (question : JsString) (options : list JsString)
  (formData : FormData) :
  getAll "question" (editFormData question options formData) = [FormString question]
  /\ getAll "options" (editFormData question options formData)
     = List.map FormString options
  /\ readPollForm (editFormData question options formData)
     = Returned (sanitizeInput question,
                 List.map sanitizeInput (filter (fun s => negb (falsy s)) options))
  /\ forall pollId w,
       exists r, fst (EditPollForm_submit pollId question options formData w) = Returned r.
Proof.
  assert (Hq : getAll "question" (editFormData question options formData)
               = [FormString question]).
  { unfold editFormData.
    rewrite getAll_append_fold_other by discriminate.
    rewrite getAll_delete_other by discriminate.
    apply getAll_set_same. }
  assert (Ho : getAll "options" (editFormData question options formData)
               = List.map FormString options).
  { unfold editFormData. rewrite getAll_append_fold.
    now rewrite getAll_delete_same. }
  assert (Hread : readPollForm (editFormData question options formData)
                  = Returned (sanitizeInput question,
                       List.map sanitizeInput (filter (fun s => negb (falsy s)) options))).
  { apply readPollForm_options; [|exact Ho]. unfold get. now rewrite Hq. }
  split; [exact Hq|]. split; [exact Ho|]. split; [exact Hread|].
  intros pollId w. unfold EditPollForm_submit.
  destruct actions_return as (_ & _ & _ & _ & H).
  destruct (H _ _ _ Hread) as [_ Hup]. apply Hup.
Qed.

Lemma EditPollForm_submits_text_witness :
  readPollForm (editFormData (js " Colour? ") [js "Red"; js ""; js "<Blue>"]
                  [("question"%string, FormFile (js "q.txt"))])
  = Returned (js "Colour?", [js "Red"; js "Blue"]).
Proof.
  exact (proj1 (proj2 (proj2 (@EditPollForm_submits_text (js " Colour? ")
           [js "Red"; js ""; js "<Blue>"]
           [("question"%string, FormFile (js "q.txt"))])))).
Defined.

(** ** The edit page *)



(** What the page answers to everyone else. *)
Lemma EditPollPage_turns_others_away (id : JsString) (w : World) :
  (regex_test uuidRegex id = false ->
     fst (EditPollPage session_user id w) = Returned NotFound)
  /\ (forall p, regex_test uuidRegex id = true -> faults w = [] ->
        filter (has_id id) (tbl_polls w) = [p] ->
        fst (EditPollPage session_user id w)
        = Returned match caller (session w) with
                   | None => Redirect "/login"
                   | Some u => if owned_by u (poll_user_id p) then Render p
                               else Redirect "/polls"
                   end).
Proof.
  split.
  - intros H. unfold EditPollPage, getPollById, bind. now rewrite H.
  - intros p Hid Hf Hp.
    unfold EditPollPage, session_user, getPollById, polls_select_single.
    rewrite Hid. run_action. cbn. rewrite Hf. cbn. rewrite Hp. cbn.
    destruct (session w); cbn; try reflexivity.
    now destruct (owned_by _ _).
Qed.

(** ** The sanitizer, in full *)

Lemma clean_forallb (s : JsString) :
  clean s -> forallb (fun c => negb (isAngle c)) s = true.
Proof.
  intros H. apply forallb_forall. intros c Hc.
  destruct (proj1 (Forall_forall _ _) H c Hc) as [H1 H2].
  unfold isAngle. apply N.eqb_neq in H1, H2. now rewrite H1, H2.
Qed.

Lemma trimStart_fixed (s : JsString) : startsWithSpace s = false -> trimStart s = s.
Proof. destruct s as [|c s]; simpl; [reflexivity|]. now intros ->. Qed.

Lemma trimStart_In (s : JsString) (c : CodeUnit) : In c (trimStart s) -> In c s.
Proof.
  induction s as [|x s IH]; simpl; [tauto|].
  destruct (isWhiteSpace x); [intros H; right; now apply IH|exact (fun H => H)].
Qed.

(** X1.  For every string, [sanitizeInput] only deletes: its
    output holds no angle bracket, holds no code unit the input did not
    hold, and is no longer than the input.  On an input without angle
    brackets the output has no whitespace at either end, and an input that
    has neither brackets nor whitespace at its ends comes back unchanged. *)
Theorem sanitizeInput_only_deletes (s : JsString) :
  clean (sanitizeInput s)
  /\ (forall c, In c (sanitizeInput s) -> In c s)
  /\ List.length (sanitizeInput s) <= List.length s
  /\ (clean s ->
      startsWithSpace (sanitizeInput s) = false
      /\ endsWithSpace (sanitizeInput s) = false)
  /\ (clean s -> startsWithSpace s = false -> endsWithSpace s = false ->
      sanitizeInput s = s).
Proof.
  split; [apply sanitizeInput_clean|]. split; [|split; [apply sanitizeInput_length|split]].
  - intros c Hc. unfold sanitizeInput, replaceAngles in Hc.
    apply filter_In in Hc as [Hc _]. unfold trim, trimEnd in Hc.
    apply in_rev, trimStart_In, in_rev in Hc. now apply trimStart_In.
  - intros H. now apply sanitizeInput_trimmed_without_angles, clean_forallb.
  - intros Hc Hs He. unfold sanitizeInput, replaceAngles, trim, trimEnd.
    rewrite (trimStart_fixed Hs). unfold endsWithSpace in He.
    rewrite (trimStart_fixed He), rev_involutive.
    apply filter_all. intros c Hin.
    exact (proj1 (forallb_forall _ _) (clean_forallb Hc) c Hin).
Qed.

Lemma sanitizeInput_only_deletes_witness :
  sanitizeInput (js "Favorite color?") = js "Favorite color?".
Proof.
  refine (proj2 (proj2 (proj2 (proj2 (sanitizeInput_only_deletes (js "Favorite color?")))))
            _ eq_refl eq_refl).
  repeat constructor; discriminate.
Defined.

(** ** Witnesses for the two voting sequences *)

Lemma submitVote_twice_witness :
  fst (submitVote colors_id (index 0) (world_of (SignedIn bob) [])) = Returned success
  /\ fst (submitVote colors_id (index 2)
            (snd (submitVote colors_id (index 0) (world_of (SignedIn bob) []))))
     = Returned (failure "You have already voted on this poll")
  /\ tbl_votes (snd (submitVote colors_id (index 2)
                       (snd (submitVote colors_id (index 0) (world_of (SignedIn bob) [])))))
     = tbl_votes (snd (submitVote colors_id (index 0) (world_of (SignedIn bob) []))).
Proof.
  exact (@submitVote_twice colors_id bob (Finite (inject_Z 0)) (Finite (inject_Z 2)) 0%Z
           (world_of (SignedIn bob) []) colors
           eq_refl eq_refl eq_refl eq_refl eq_refl eq_refl eq_refl eq_refl eq_refl eq_refl).
Defined.

Lemma submitVotes_anonymous_witness :
  List.length (tbl_votes (submitVotes 3 colors_id (index 1) (world_of Anonymous []))) = 3.
Proof.
  exact (proj1 (@submitVotes_anonymous 3 colors_id (Finite (inject_Z 1)) 1%Z
                  (world_of Anonymous []) colors
                  eq_refl eq_refl eq_refl eq_refl eq_refl eq_refl eq_refl)).
Defined.
